(** * Emoji steganography codecs (emoji_stego_android.py)

    A shallow embedding of the two text-in-emoji codecs of the application
    and of the detection dispatcher of its REVEAL tab, with the properties
    stated about them.

    Conventions.
    - A Python [str] is the list of its code points ([Z]); a [bytes] object is
      the list of its byte values.
    - A decoder returning Python's [None] returns Rocq's [None].
    - [str.encode('utf-8')] raises [UnicodeEncodeError] on a lone surrogate;
      an encoder that raises returns [None]. *)

From Stdlib Require Import ZArith List Bool Lia ZifyBool SpecFloat.
Import ListNotations.
Local Open Scope Z_scope.

Definition str := list Z.
Definition bytes := list Z.

(** ** Python's codecs, as used by the source

    [str.encode('utf-8')], [bytes.decode('utf-8')] (strict error handler) and
    [bytes.decode('latin-1')] belong to the Python runtime.  They are modelled
    after the UTF-8 definition the runtime implements: shortest form only, no
    surrogates, nothing above U+10FFFF. *)
Module Codec.

Definition is_surrogate (c : Z) : bool := (0xD800 <=? c) && (c <=? 0xDFFF).

(** Code points [str.encode('utf-8')] accepts: the Unicode scalar values. *)
Definition is_scalar (c : Z) : bool :=
  (0 <=? c) && (c <=? 0x10FFFF) && negb (is_surrogate c).

Definition well_formed (text : str) : bool := forallb is_scalar text.

Definition encode_code_point (c : Z) : option bytes :=
  if negb (is_scalar c) then None
  else if c <? 0x80 then Some [c]
  else if c <? 0x800 then Some [0xC0 + c / 64; 0x80 + c mod 64]
  else if c <? 0x10000 then
    Some [0xE0 + c / 4096; 0x80 + (c / 64) mod 64; 0x80 + c mod 64]
  else
    Some [0xF0 + c / 262144; 0x80 + (c / 4096) mod 64;
          0x80 + (c / 64) mod 64; 0x80 + c mod 64].

(** [text.encode('utf-8')]; [None] stands for [UnicodeEncodeError]. *)
Fixpoint utf8_encode (text : str) : option bytes :=
  match text with
  | [] => Some []
  | c :: rest =>
      match encode_code_point c, utf8_encode rest with
      | Some bs, Some more => Some (bs ++ more)
      | _, _ => None
      end
  end.

Definition is_continuation (b : Z) : bool := (0x80 <=? b) && (b <? 0xC0).

(** [raw.decode('utf-8')]; [None] stands for [UnicodeDecodeError]. *)
Fixpoint utf8_decode (raw : bytes) : option str :=
  match raw with
  | [] => Some []
  | b0 :: r0 =>
      if (0 <=? b0) && (b0 <? 0x80) then
        option_map (cons b0) (utf8_decode r0)
      else if (0xC0 <=? b0) && (b0 <? 0xE0) then
        match r0 with
        | b1 :: r1 =>
            let c := (b0 - 0xC0) * 64 + (b1 - 0x80) in
            if is_continuation b1 && (0x80 <=? c)
            then option_map (cons c) (utf8_decode r1)
            else None
        | _ => None
        end
      else if (0xE0 <=? b0) && (b0 <? 0xF0) then
        match r0 with
        | b1 :: b2 :: r2 =>
            let c := (b0 - 0xE0) * 4096 + (b1 - 0x80) * 64 + (b2 - 0x80) in
            if is_continuation b1 && is_continuation b2
               && (0x800 <=? c) && negb (is_surrogate c)
            then option_map (cons c) (utf8_decode r2)
            else None
        | _ => None
        end
      else if (0xF0 <=? b0) && (b0 <? 0xF8) then
        match r0 with
        | b1 :: b2 :: b3 :: r3 =>
            let c := (b0 - 0xF0) * 262144 + (b1 - 0x80) * 4096
                     + (b2 - 0x80) * 64 + (b3 - 0x80) in
            if is_continuation b1 && is_continuation b2 && is_continuation b3
               && (0x10000 <=? c) && (c <=? 0x10FFFF)
            then option_map (cons c) (utf8_decode r3)
            else None
        | _ => None
        end
      else None
  end.

(** [raw.decode('latin-1')]: byte value [b] becomes code point [b]. *)
Definition latin1_decode (raw : bytes) : option str := Some raw.

End Codec.

(** ** TAG mode *)

Definition TAG_BASE : Z := 0xE0000.
Definition TAG_END : Z := 0xE007F.

Definition is_tag_digit (code : Z) : bool :=
  (TAG_BASE <=? code) && (code <? TAG_BASE + 16).

(** [text_to_tags]: two tag characters per UTF-8 byte, high nibble first. *)
Definition byte_to_tags (byte : Z) : str :=
  let high := Z.land (Z.shiftr byte 4) 0x0F in
  let low := Z.land byte 0x0F in
  [TAG_BASE + high; TAG_BASE + low].

Definition text_to_tags (text : str) : option str :=
  match Codec.utf8_encode text with
  | Some utf8_bytes => Some (flat_map byte_to_tags utf8_bytes)
  | None => None
  end.

(** [hide_text_in_emoji_tags]: [emoji + tag_text + chr(TAG_END)]. *)
Definition hide_text_in_emoji_tags (emoji hidden_text : str) : option str :=
  match text_to_tags hidden_text with
  | Some tag_text => Some (emoji ++ tag_text ++ [TAG_END])
  | None => None
  end.

(** The scanning loop shared by [tags_to_text] and
    [reveal_text_from_emoji_tags]: a digit is appended, [TAG_END] breaks out
    of the loop, every other character is passed over. *)
Fixpoint scan_nibbles (stego_emoji : str) : list Z :=
  match stego_emoji with
  | [] => []
  | code :: rest =>
      if is_tag_digit code then (code - TAG_BASE) :: scan_nibbles rest
      else if code =? TAG_END then []
      else scan_nibbles rest
  end.

(** [for i in range(0, len(nibbles) - 1, 2)]: the pairs (0,1), (2,3), ...;
    an unpaired last nibble is never visited. *)
Fixpoint pair_nibbles (nibbles : list Z) : bytes :=
  match nibbles with
  | high :: low :: rest => Z.lor (Z.shiftl high 4) low :: pair_nibbles rest
  | _ => []
  end.

(** [tags_to_text]: the same loops without the emptiness guard. *)
Definition tags_to_text (tags : str) : option str :=
  Codec.utf8_decode (pair_nibbles (scan_nibbles tags)).

Definition reveal_text_from_emoji_tags (stego_emoji : str) : option str :=
  let nibbles := scan_nibbles stego_emoji in
  match nibbles with
  | [] => None
  | _ => Codec.utf8_decode (pair_nibbles nibbles)
  end.

(** ** BINARY mode *)

(** The keys of the [ZERO_WIDTH_CHARS] dictionary. *)
Inductive zw_key := key_0 | key_1 | key_sep.

Definition ZERO_WIDTH_CHARS (key : zw_key) : Z :=
  match key with
  | key_0 => 0x200B
  | key_1 => 0x200C
  | key_sep => 0x200D
  end.

(** A binary string is a Python [str] over the two characters '0' and '1';
    [true] stands for '1'. *)
Definition bitstring := list bool.

Definition bit_key (bit : bool) : zw_key := if bit then key_1 else key_0.

(** [format(byte, '08b')]: eight binary digits, most significant first. *)
Definition format_08b (byte : Z) : bitstring :=
  map (Z.testbit byte) [7; 6; 5; 4; 3; 2; 1; 0].

Definition text_to_binary (text : str) : option bitstring :=
  match Codec.utf8_encode text with
  | Some utf8_bytes => Some (flat_map format_08b utf8_bytes)
  | None => None
  end.

(** [int(byte, 2)]. *)
Definition int_base2 (digits : bitstring) : Z :=
  fold_left (fun acc (bit : bool) => 2 * acc + (if bit then 1 else 0)) digits 0.

(** [for i in range(0, len(binary), 8)]: the slices [binary[i:i+8]]; only a
    slice of length 8 is converted, and a shorter one can only be the last. *)
Fixpoint group_bytes (binary : bitstring) : bytes :=
  match binary with
  | d7 :: d6 :: d5 :: d4 :: d3 :: d2 :: d1 :: d0 :: rest =>
      int_base2 [d7; d6; d5; d4; d3; d2; d1; d0] :: group_bytes rest
  | _ => []
  end.

(** [sum(1 for c in result if ord(c) < 32 and c not in '\n\r\t')]. *)
Definition is_control (c : Z) : bool :=
  (c <? 32) && negb ((c =? 10) || (c =? 13) || (c =? 9)).

Definition control_count (result : str) : Z :=
  Z.of_nat (length (filter is_control result)).

(** [control_count <= len(result) * 0.1].  The product is a binary64 float
    and Python compares the integer with it exactly.  The decoder is modelled
    with the exact test [10 * control_count <= len(result)];
    [plausible_binary64] below is the float computation itself, and
    [plausible_binary64_agrees] shows that the two tests agree on every
    string of up to 4096 characters. *)
Definition plausible (result : str) : bool :=
  10 * control_count result <=? Z.of_nat (length result).

(** The binary64 number written [0.1]: 0x1.999999999999ap-4. *)
Definition tenth : spec_float := S754_finite false 7205759403792794 (-56).

(** [len(result) * 0.1] in binary64, rounded to nearest even. *)
Definition len_times_tenth (n : Z) : spec_float :=
  match n with
  | Zpos p => SFmul 53 1024 (S754_finite false p 0) tenth
  | _ => S754_zero false
  end.

(** Python's exact comparison [k <= x] of an integer with a float. *)
Definition int_le_float (k : Z) (x : spec_float) : bool :=
  match x with
  | S754_zero _ => k <=? 0
  | S754_finite false m e =>
      if 0 <=? e then k <=? Zpos m * 2 ^ e else k * 2 ^ (- e) <=? Zpos m
  | S754_finite true m e =>
      if 0 <=? e then k <=? - (Zpos m * 2 ^ e) else k * 2 ^ (- e) <=? - Zpos m
  | S754_infinity s => negb s
  | S754_nan => false
  end.

Definition plausible_binary64 (result : str) : bool :=
  int_le_float (control_count result)
               (len_times_tenth (Z.of_nat (length result))).

(** The largest integer that passes the float test for length [n] is
    [n / 10]. *)
Definition threshold_ok (n : Z) : bool :=
  int_le_float (n / 10) (len_times_tenth n)
  && negb (int_le_float (n / 10 + 1) (len_times_tenth n)).

(** The three [try] blocks of [binary_to_text], each an attempt. *)
Definition utf8_attempt (raw_bytes : bytes) : option str :=
  match Codec.utf8_decode raw_bytes with
  | Some result => if plausible result then Some result else None
  | None => None
  end.

Definition latin1_attempt (raw_bytes : bytes) : option str :=
  Codec.latin1_decode raw_bytes.

(** [''.join(chr(b) for b in bytes_list)]. *)
Definition raw_attempt (bytes_list : bytes) : option str := Some bytes_list.

(** Which [return] statement of [binary_to_text] produced the text. *)
Inductive stage := ViaUtf8 | ViaLatin1 | ViaRaw.

Definition binary_to_text_traced (binary : bitstring) : option (stage * str) :=
  let bytes_list := group_bytes binary in
  match bytes_list with
  | [] => None
  | _ =>
      match utf8_attempt bytes_list with
      | Some result => Some (ViaUtf8, result)
      | None =>
          match latin1_attempt bytes_list with
          | Some result => Some (ViaLatin1, result)
          | None =>
              match raw_attempt bytes_list with
              | Some result => Some (ViaRaw, result)
              | None => None
              end
          end
      end
  end.

Definition binary_to_text (binary : bitstring) : option str :=
  option_map snd (binary_to_text_traced binary).

Definition encode_text_in_emoji_binary (emoji hidden_text : str) : option str :=
  match text_to_binary hidden_text with
  | Some binary =>
      let hidden_chars :=
        map (fun bit => ZERO_WIDTH_CHARS (bit_key bit)) binary
        ++ [ZERO_WIDTH_CHARS key_sep] in
      Some (emoji ++ hidden_chars)
  | None => None
  end.

(** The scanning loop of [decode_text_from_emoji_binary]. *)
Fixpoint scan_bits (stego_emoji : str) : bitstring :=
  match stego_emoji with
  | [] => []
  | char :: rest =>
      if char =? ZERO_WIDTH_CHARS key_0 then false :: scan_bits rest
      else if char =? ZERO_WIDTH_CHARS key_1 then true :: scan_bits rest
      else if char =? ZERO_WIDTH_CHARS key_sep then []
      else scan_bits rest
  end.

Definition decode_text_from_emoji_binary (stego_emoji : str) : option str :=
  let binary := scan_bits stego_emoji in
  match binary with
  | [] => None
  | _ => binary_to_text binary
  end.

(** ** The dispatcher of the REVEAL tab: [DecodeTab.decode_message] *)

(** [str.isspace] on one character; [str.strip()] removes these from both
    ends. *)
Definition py_isspace (c : Z) : bool :=
  ((0x09 <=? c) && (c <=? 0x0D)) || ((0x1C <=? c) && (c <=? 0x20))
  || (c =? 0x85) || (c =? 0xA0) || (c =? 0x1680)
  || ((0x2000 <=? c) && (c <=? 0x200A))
  || (c =? 0x2028) || (c =? 0x2029) || (c =? 0x202F) || (c =? 0x205F)
  || (c =? 0x3000).

Fixpoint lstrip (s : str) : str :=
  match s with
  | c :: rest => if py_isspace c then lstrip rest else s
  | [] => []
  end.

Definition strip (s : str) : str := rev (lstrip (rev (lstrip s))).

(** The three toggle buttons of the tab; exactly one is down. *)
Inductive detect_mode := AutoDetect | TagOnly | BinaryOnly.

(** The values the variable [mode_found] takes: [''], ['TAG'], ['BINARY']. *)
Inductive mode_name := Unset | TAG | BINARY.

(** What the tab shows: the message with the mode that found it, the
    "No hidden message detected." text, or the "Input Required" popup. *)
Inductive outcome :=
| MessageFound (hidden_text : str) (mode_found : mode_name)
| NoMessage
| InputRequired.

(** Python's truth value of [hidden_text]: neither [None] nor ['']. *)
Definition truthy (hidden_text : option str) : bool :=
  match hidden_text with
  | Some (_ :: _) => true
  | _ => false
  end.

Definition decode_message (mode : detect_mode) (input_text : str) : outcome :=
  let stego_emoji := strip input_text in
  match stego_emoji with
  | [] => InputRequired
  | _ =>
      let '(hidden_text, mode_found) :=
        match mode with
        | AutoDetect =>
            let hidden_text := reveal_text_from_emoji_tags stego_emoji in
            if truthy hidden_text then (hidden_text, TAG)
            else
              let hidden_text := decode_text_from_emoji_binary stego_emoji in
              if truthy hidden_text then (hidden_text, BINARY)
              else (hidden_text, Unset)
        | TagOnly => (reveal_text_from_emoji_tags stego_emoji, TAG)
        | BinaryOnly => (decode_text_from_emoji_binary stego_emoji, BINARY)
        end in
      match hidden_text with
      | Some (c :: text) => MessageFound (c :: text) mode_found
      | _ => NoMessage
      end
  end.

Definition decode_auto (stego : str) : outcome := decode_message AutoDetect stego.

(** ** The HIDE tab: [EncodeTab.encode_message] and [EncodeTab.copy_result] *)

(** What the tab shows after HIDE MESSAGE: one of the two "Input Required"
    popups, the result with the mode name and the [char_increase] of the
    "Success" popup, or the "Error" popup of the [except] branch. *)
Inductive encode_outcome :=
| EmojiRequired
| TextRequired
| Hidden (stego_emoji : str) (mode_name : mode_name) (char_increase : Z)
| EncodeError.

(** [tag_down] is [self.tag_btn.state == 'down']; the two other arguments are
    the texts of the two input fields. *)
Definition encode_message (tag_down : bool) (emoji_input hidden_input : str)
  : encode_outcome :=
  let emoji := strip emoji_input in
  let hidden_text := strip hidden_input in
  match emoji with
  | [] => EmojiRequired
  | _ =>
      match hidden_text with
      | [] => TextRequired
      | _ =>
          let '(encoded, mode_name) :=
            if tag_down
            then (hide_text_in_emoji_tags emoji hidden_text, TAG)
            else (encode_text_in_emoji_binary emoji hidden_text, BINARY) in
          match encoded with
          | Some stego_emoji =>
              Hidden stego_emoji mode_name
                     (Z.of_nat (length stego_emoji) - Z.of_nat (length emoji))
          | None => EncodeError
          end
      end
  end.

(** [EncodeTab.copy_result] on the text of the result field: what goes to the
    clipboard, [None] for the "Nothing to Copy" popup. *)
Definition encode_copy_result (result_text : str) : option str :=
  match strip result_text with
  | [] => None
  | text => Some text
  end.

(** ** Vocabulary of the properties *)

(** The alphabet of TAG mode: the sixteen digits and the terminator. *)
Definition in_tag_alphabet (c : Z) : bool := is_tag_digit c || (c =? TAG_END).

(** The alphabet of BINARY mode: the two bit characters and the separator. *)
Definition in_zw_alphabet (c : Z) : bool :=
  (c =? ZERO_WIDTH_CHARS key_0) || (c =? ZERO_WIDTH_CHARS key_1)
  || (c =? ZERO_WIDTH_CHARS key_sep).

(** A carrier free of the code points of a mode. *)
Definition tag_free (s : str) : bool := forallb (fun c => negb (in_tag_alphabet c)) s.
Definition zw_free (s : str) : bool := forallb (fun c => negb (in_zw_alphabet c)) s.
Definition digit_free (s : str) : bool := forallb (fun c => negb (is_tag_digit c)) s.

(** The characters before the first occurrence of [mark]. *)
Fixpoint upto (mark : Z) (s : str) : str :=
  match s with
  | [] => []
  | c :: rest => if c =? mark then [] else c :: upto mark rest
  end.

(** What a decoder can see of a string: the characters of its own alphabet
    that come before the first terminator. *)
Definition tag_view (s : str) : str := upto TAG_END (filter in_tag_alphabet s).
Definition zw_view (s : str) : str :=
  upto (ZERO_WIDTH_CHARS key_sep) (filter in_zw_alphabet s).

Definition is_ascii (c : Z) : bool := (0 <=? c) && (c <? 0x80).

Definition is_byte (b : Z) : Prop := 0 <= b < 256.

(** The nibbles of a byte, as [text_to_tags] splits it. *)
Definition nibbles_of (byte : Z) : list Z :=
  [Z.land (Z.shiftr byte 4) 0x0F; Z.land byte 0x0F].

(** The fallback order as the specification words it: an ordered list of
    attempts, the first success is the result. *)
Fixpoint first_success {A B : Type} (attempts : list (A -> option B)) (x : A)
  : option B :=
  match attempts with
  | [] => None
  | attempt :: others =>
      match attempt x with
      | Some y => Some y
      | None => first_success others x
      end
  end.

(** The mode dispatch of [decode_message] on the results of the two
    decoders, the emptiness test of the stripped input left aside. *)
Definition report (mode : detect_mode) (tag_text binary_text : option str)
  : outcome :=
  match mode with
  | AutoDetect =>
      match tag_text with
      | Some (c :: text) => MessageFound (c :: text) TAG
      | _ =>
          match binary_text with
          | Some (c :: text) => MessageFound (c :: text) BINARY
          | _ => NoMessage
          end
      end
  | TagOnly =>
      match tag_text with
      | Some (c :: text) => MessageFound (c :: text) TAG
      | _ => NoMessage
      end
  | BinaryOnly =>
      match binary_text with
      | Some (c :: text) => MessageFound (c :: text) BINARY
      | _ => NoMessage
      end
  end.

(** The characters outside an alphabet: what stays visible. *)
Definition visible_tag (s : str) : str := filter (fun c => negb (in_tag_alphabet c)) s.
Definition visible_zw (s : str) : str := filter (fun c => negb (in_zw_alphabet c)) s.

(** A list without its last element when its length is odd. *)
Fixpoint drop_unpaired (l : list Z) : list Z :=
  match l with
  | a :: b :: rest => a :: b :: drop_unpaired rest
  | _ => []
  end.

(** A binary string without the bits after its last complete group of
    eight. *)
Fixpoint whole_groups (binary : bitstring) : bitstring :=
  match binary with
  | d7 :: d6 :: d5 :: d4 :: d3 :: d2 :: d1 :: d0 :: rest =>
      d7 :: d6 :: d5 :: d4 :: d3 :: d2 :: d1 :: d0 :: whole_groups rest
  | _ => []
  end.

(** * Properties *)

(** Replaces the condition of the next [if] by the truth value linear
    arithmetic gives it. *)
Ltac settle_test :=
  match goal with
  | |- context [if ?b then _ else _] =>
      first [ replace b with true by lia | replace b with false by lia ]
  end.

(** ** The UTF-8 codec round trip *)
Module CodecFacts.
Import Codec.

Lemma decode_two q r rest :
  2 <= q < 32 -> 0 <= r < 64 ->
  utf8_decode (0xC0 + q :: 0x80 + r :: rest)
  = option_map (cons (q * 64 + r)) (utf8_decode rest).
Proof.
  intros Hq Hr. cbn [utf8_decode]; cbv zeta. unfold is_continuation.
  repeat settle_test. do 2 f_equal. lia.
Qed.

Lemma decode_three p q r rest :
  0 <= p < 16 -> 0 <= q < 64 -> 0 <= r < 64 ->
  0x800 <= p * 4096 + q * 64 + r ->
  is_surrogate (p * 4096 + q * 64 + r) = false ->
  utf8_decode (0xE0 + p :: 0x80 + q :: 0x80 + r :: rest)
  = option_map (cons (p * 4096 + q * 64 + r)) (utf8_decode rest).
Proof.
  intros Hp Hq Hr Hc Hs. unfold is_surrogate in Hs.
  cbn [utf8_decode]; cbv zeta. unfold is_continuation, is_surrogate.
  repeat settle_test. do 2 f_equal. lia.
Qed.

Lemma decode_four o p q r rest :
  0 <= o < 8 -> 0 <= p < 64 -> 0 <= q < 64 -> 0 <= r < 64 ->
  0x10000 <= o * 262144 + p * 4096 + q * 64 + r <= 0x10FFFF ->
  utf8_decode (0xF0 + o :: 0x80 + p :: 0x80 + q :: 0x80 + r :: rest)
  = option_map (cons (o * 262144 + p * 4096 + q * 64 + r)) (utf8_decode rest).
Proof.
  intros Ho Hp Hq Hr Hc.
  cbn [utf8_decode]; cbv zeta. unfold is_continuation.
  repeat settle_test. do 2 f_equal. lia.
Qed.

Lemma split_64 c : c = c / 64 * 64 + c mod 64 /\ 0 <= c mod 64 < 64.
Proof.
  split; [ pose proof (Z.div_mod c 64); lia | apply Z.mod_pos_bound; lia ].
Qed.

(** Decoding consumes exactly the bytes one code point was encoded to. *)
Lemma decode_encode_code_point c rest :
  match encode_code_point c with
  | Some bs => utf8_decode (bs ++ rest) = option_map (cons c) (utf8_decode rest)
  | None => True
  end.
Proof.
  unfold encode_code_point, is_scalar.
  destruct (is_surrogate c) eqn:Hsur; [ rewrite andb_false_r; exact I |].
  destruct ((0 <=? c) && (c <=? 1114111)) eqn:Hr; [ | exact I ].
  assert (Hc : 0 <= c <= 0x10FFFF) by lia. clear Hr.
  cbn [negb andb].
  destruct (split_64 c) as [E1 B1].
  destruct (split_64 (c / 64)) as [E2 B2].
  destruct (split_64 (c / 64 / 64)) as [E3 B3].
  assert (D2 : c / 4096 = c / 64 / 64)
    by (rewrite Z.div_div by lia; reflexivity).
  assert (D3 : c / 262144 = c / 64 / 64 / 64)
    by (rewrite !Z.div_div by lia; reflexivity).
  rewrite D2, D3.
  destruct (c <? 0x80) eqn:H1;
    [| destruct (c <? 0x800) eqn:H2; [| destruct (c <? 0x10000) eqn:H3 ]];
    unfold app.
  - cbn [utf8_decode]. settle_test. reflexivity.
  - rewrite decode_two by lia. do 2 f_equal. lia.
  - rewrite decode_three; try lia.
    + do 2 f_equal. lia.
    + replace (c / 64 / 64 * 4096 + (c / 64) mod 64 * 64 + c mod 64)
        with c by lia.
      exact Hsur.
  - rewrite decode_four; try lia. do 2 f_equal. lia.
Qed.

(** Every byte [encode_code_point] emits is a byte. *)
Lemma encode_code_point_range c :
  match encode_code_point c with
  | Some bs => Forall (fun b => 0 <= b < 256) bs
  | None => True
  end.
Proof.
  unfold encode_code_point, is_scalar.
  destruct (is_surrogate c) eqn:Hsur; [ rewrite andb_false_r; exact I |].
  destruct ((0 <=? c) && (c <=? 1114111)) eqn:Hr; [ | exact I ].
  assert (Hc : 0 <= c <= 0x10FFFF) by lia. clear Hr.
  cbn [negb andb].
  destruct (split_64 c) as [E1 B1].
  destruct (split_64 (c / 64)) as [E2 B2].
  destruct (split_64 (c / 64 / 64)) as [E3 B3].
  assert (D2 : c / 4096 = c / 64 / 64)
    by (rewrite Z.div_div by lia; reflexivity).
  assert (D3 : c / 262144 = c / 64 / 64 / 64)
    by (rewrite !Z.div_div by lia; reflexivity).
  rewrite D2, D3.
  destruct (c <? 0x80) eqn:H1;
    [| destruct (c <? 0x800) eqn:H2; [| destruct (c <? 0x10000) eqn:H3 ]];
    repeat constructor; lia.
Qed.

Lemma encode_code_point_nonempty c bs :
  encode_code_point c = Some bs -> bs <> [].
Proof.
  unfold encode_code_point.
  repeat match goal with |- context [if ?b then _ else _] => destruct b end;
    intros H Hnil; rewrite Hnil in H; discriminate.
Qed.

Lemma utf8_encode_total text :
  well_formed text = true -> exists raw, utf8_encode text = Some raw.
Proof.
  induction text as [|c rest IH]; cbn [well_formed forallb utf8_encode].
  - eauto.
  - intros [Hc Hrest]%andb_true_iff. destruct (IH Hrest) as [more ->].
    unfold encode_code_point. rewrite Hc. cbn [negb].
    repeat match goal with |- context [if ?b then _ else _] => destruct b end;
      eauto.
Qed.

Lemma utf8_encode_fails text :
  utf8_encode text = None -> well_formed text = false.
Proof.
  intros H. destruct (well_formed text) eqn:W; [|reflexivity].
  destruct (utf8_encode_total text W) as [raw E]. congruence.
Qed.

Lemma utf8_encode_range text raw :
  utf8_encode text = Some raw -> Forall (fun b => 0 <= b < 256) raw.
Proof.
  revert raw. induction text as [|c rest IH]; cbn [utf8_encode].
  - intros raw [= <-]. constructor.
  - intros raw. pose proof (encode_code_point_range c) as Hc.
    destruct (encode_code_point c) as [bs|]; [|discriminate].
    destruct (utf8_encode rest) as [more|]; [|discriminate].
    intros [= <-]. apply Forall_app. split; [exact Hc | apply IH; reflexivity].
Qed.

Lemma utf8_encode_nonempty text raw :
  utf8_encode text = Some raw -> text <> [] -> raw <> [].
Proof.
  destruct text as [|c rest]; [congruence|]. cbn [utf8_encode].
  destruct (encode_code_point c) as [bs|] eqn:E; [|discriminate].
  destruct (utf8_encode rest) as [more|]; [|discriminate].
  intros [= <-] _ Hnil. apply app_eq_nil in Hnil as [Hbs _].
  exact (encode_code_point_nonempty c bs E Hbs).
Qed.

(** [text.encode('utf-8').decode('utf-8') == text]. *)
Lemma utf8_round_trip text raw :
  utf8_encode text = Some raw -> utf8_decode raw = Some text.
Proof.
  revert raw. induction text as [|c rest IH]; cbn [utf8_encode].
  - intros raw [= <-]. reflexivity.
  - intros raw. pose proof (decode_encode_code_point c) as Hc.
    destruct (encode_code_point c) as [bs|]; [|discriminate].
    destruct (utf8_encode rest) as [more|]; [|discriminate].
    intros [= <-]. rewrite Hc, (IH more eq_refl). reflexivity.
Qed.

(** An ASCII text is its own UTF-8 encoding. *)
Lemma utf8_encode_ascii text :
  forallb is_ascii text = true -> utf8_encode text = Some text.
Proof.
  induction text as [|c rest IH]; cbn [forallb utf8_encode]; [reflexivity|].
  intros [Hc Hrest]%andb_true_iff. rewrite (IH Hrest).
  unfold is_ascii in Hc. unfold encode_code_point, is_scalar, is_surrogate.
  repeat settle_test. reflexivity.
Qed.

End CodecFacts.

(** ** Bytes, nibbles and bits *)

(** A property checked on the 256 byte values holds of every byte. *)
Lemma byte_cases (P : Z -> bool) :
  forallb P (map Z.of_nat (seq 0 256)) = true ->
  forall b, is_byte b -> P b = true.
Proof.
  intros H b Hb. unfold is_byte in Hb. rewrite forallb_forall in H. apply H.
  apply in_map_iff. exists (Z.to_nat b). split; [lia|].
  apply in_seq. lia.
Qed.

Lemma nibble_range x : 0 <= Z.land x 0x0F < 16.
Proof.
  change 0x0F with (Z.ones 4). rewrite Z.land_ones by lia.
  apply Z.mod_pos_bound. reflexivity.
Qed.

Lemma join_nibbles b :
  is_byte b ->
  Z.lor (Z.shiftl (Z.land (Z.shiftr b 4) 0x0F) 4) (Z.land b 0x0F) = b.
Proof.
  intros Hb. apply Z.eqb_eq.
  apply (byte_cases
           (fun b => Z.lor (Z.shiftl (Z.land (Z.shiftr b 4) 0x0F) 4)
                           (Z.land b 0x0F) =? b)); [|exact Hb].
  vm_compute. reflexivity.
Qed.

Lemma int_base2_format_08b b : is_byte b -> int_base2 (format_08b b) = b.
Proof.
  intros Hb. apply Z.eqb_eq.
  apply (byte_cases (fun b => int_base2 (format_08b b) =? b)); [|exact Hb].
  vm_compute. reflexivity.
Qed.

Lemma int_base2_byte d7 d6 d5 d4 d3 d2 d1 d0 :
  is_byte (int_base2 [d7; d6; d5; d4; d3; d2; d1; d0]).
Proof.
  destruct d7, d6, d5, d4, d3, d2, d1, d0; vm_compute; split; congruence.
Qed.

(** ** The control character filter in binary64 *)

Lemma int_le_float_down k k' x :
  k <= k' -> int_le_float k' x = true -> int_le_float k x = true.
Proof.
  intros Hk. destruct x as [s | s | | [|] m e]; cbn [int_le_float]; try lia;
    destruct (0 <=? e) eqn:He; try lia;
    assert (0 < 2 ^ (- e)) by (apply Z.pow_pos_nonneg; lia); nia.
Qed.

Lemma threshold_ok_upto :
  forallb threshold_ok (map Z.of_nat (seq 0 4097)) = true.
Proof. vm_compute. reflexivity. Qed.

(** On strings of up to 4096 characters the exact test is the float test. *)
Lemma plausible_binary64_agrees result :
  (length result <= 4096)%nat -> plausible_binary64 result = plausible result.
Proof.
  intros Hlen. unfold plausible_binary64, plausible.
  set (n := Z.of_nat (length result)). set (k := control_count result).
  assert (Hn : threshold_ok n = true).
  { pose proof threshold_ok_upto as H. rewrite forallb_forall in H. apply H.
    apply in_map_iff. exists (length result). split; [reflexivity|].
    apply in_seq. lia. }
  apply andb_true_iff in Hn as [Hlow Hhigh]. apply negb_true_iff in Hhigh.
  assert (Hdiv : n = 10 * (n / 10) + n mod 10 /\ 0 <= n mod 10 < 10)
    by (split; [apply Z.div_mod; lia | apply Z.mod_pos_bound; lia]).
  destruct (10 * k <=? n) eqn:T.
  - apply (int_le_float_down k (n / 10)); [lia | exact Hlow].
  - destruct (int_le_float k (len_times_tenth n)) eqn:F; [|reflexivity].
    rewrite (int_le_float_down (n / 10 + 1) k) in Hhigh; [discriminate | lia | exact F].
Qed.

(** ** The TAG scan *)

Lemma tag_digit_not_end c : is_tag_digit c = true -> (c =? TAG_END) = false.
Proof. unfold is_tag_digit, TAG_BASE, TAG_END. lia. Qed.

Lemma tag_digit_of_nibble n : 0 <= n < 16 -> is_tag_digit (TAG_BASE + n) = true.
Proof. unfold is_tag_digit, TAG_BASE. lia. Qed.

(** The scan reads off the view, digit by digit. *)
Lemma scan_nibbles_view s :
  scan_nibbles s = map (fun c => c - TAG_BASE) (tag_view s).
Proof.
  unfold tag_view.
  induction s as [|c rest IH]; cbn [scan_nibbles filter]; [reflexivity|].
  unfold in_tag_alphabet.
  destruct (is_tag_digit c) eqn:D; cbn [orb].
  - cbn [upto]. rewrite (tag_digit_not_end c D). cbn [map]. now rewrite IH.
  - destruct (c =? TAG_END) eqn:E; [|exact IH].
    cbn [upto]. rewrite E. reflexivity.
Qed.

Lemma scan_nibbles_skip carrier s :
  tag_free carrier = true -> scan_nibbles (carrier ++ s) = scan_nibbles s.
Proof.
  unfold tag_free, in_tag_alphabet.
  induction carrier as [|c rest IH]; cbn [forallb app scan_nibbles]; [reflexivity|].
  intros [Hc Hrest]%andb_true_iff.
  apply negb_true_iff, orb_false_iff in Hc as [-> ->]. auto.
Qed.

Lemma scan_nibbles_tags raw tail :
  scan_nibbles (flat_map byte_to_tags raw ++ TAG_END :: tail)
  = flat_map nibbles_of raw.
Proof.
  induction raw as [|b rest IH]; cbn [flat_map].
  - cbn [app scan_nibbles]. reflexivity.
  - unfold byte_to_tags at 1. cbv zeta. cbn [app scan_nibbles].
    rewrite !tag_digit_of_nibble by apply nibble_range.
    rewrite IH. unfold nibbles_of at 2. cbn [app]. f_equal; [lia|]. f_equal. lia.
Qed.

Lemma pair_nibbles_of raw :
  Forall is_byte raw -> pair_nibbles (flat_map nibbles_of raw) = raw.
Proof.
  induction 1 as [|b rest Hb _ IH]; cbn [flat_map]; [reflexivity|].
  unfold nibbles_of at 1. cbn [app pair_nibbles].
  now rewrite join_nibbles, IH.
Qed.

Lemma flat_map_nibbles_nonempty raw : raw <> [] -> flat_map nibbles_of raw <> [].
Proof. destruct raw; [congruence|]. cbn. discriminate. Qed.

(** ** The BINARY scan *)

Lemma zw_bit0_tests c :
  (c =? ZERO_WIDTH_CHARS key_0) = true ->
  (c =? ZERO_WIDTH_CHARS key_1) = false /\ (c =? ZERO_WIDTH_CHARS key_sep) = false.
Proof. cbn [ZERO_WIDTH_CHARS]. lia. Qed.

Lemma zw_bit1_tests c :
  (c =? ZERO_WIDTH_CHARS key_1) = true ->
  (c =? ZERO_WIDTH_CHARS key_0) = false /\ (c =? ZERO_WIDTH_CHARS key_sep) = false.
Proof. cbn [ZERO_WIDTH_CHARS]. lia. Qed.

Lemma scan_bits_view s :
  scan_bits s = map (fun c => c =? ZERO_WIDTH_CHARS key_1) (zw_view s).
Proof.
  unfold zw_view.
  induction s as [|c rest IH]; cbn [scan_bits filter]; [reflexivity|].
  unfold in_zw_alphabet at 1.
  destruct (c =? ZERO_WIDTH_CHARS key_0) eqn:E0.
  - destruct (zw_bit0_tests c E0) as [E1 Es].
    cbn [orb upto]. rewrite Es. cbn [map]. now rewrite E1, IH.
  - destruct (c =? ZERO_WIDTH_CHARS key_1) eqn:E1.
    + destruct (zw_bit1_tests c E1) as [_ Es].
      cbn [orb upto]. rewrite Es. cbn [map]. now rewrite E1, IH.
    + cbn [orb]. destruct (c =? ZERO_WIDTH_CHARS key_sep) eqn:Es; [|exact IH].
      cbn [upto]. rewrite Es. reflexivity.
Qed.

Lemma scan_bits_skip carrier s :
  zw_free carrier = true -> scan_bits (carrier ++ s) = scan_bits s.
Proof.
  unfold zw_free, in_zw_alphabet.
  induction carrier as [|c rest IH]; cbn [forallb app scan_bits]; [reflexivity|].
  intros [Hc Hrest]%andb_true_iff.
  apply negb_true_iff, orb_false_iff in Hc as [Hc ->].
  apply orb_false_iff in Hc as [-> ->]. auto.
Qed.

Lemma scan_bits_hidden binary tail :
  scan_bits (map (fun bit => ZERO_WIDTH_CHARS (bit_key bit)) binary
             ++ ZERO_WIDTH_CHARS key_sep :: tail) = binary.
Proof.
  induction binary as [|bit rest IH]; cbn [map app scan_bits].
  - reflexivity.
  - destruct bit; cbn [bit_key]; rewrite ?Z.eqb_refl; cbn [ZERO_WIDTH_CHARS];
      cbn [Z.eqb Pos.eqb]; now rewrite <- IH at 2.
Qed.

Lemma group_bytes_format raw :
  Forall is_byte raw -> group_bytes (flat_map format_08b raw) = raw.
Proof.
  induction 1 as [|b rest Hb _ IH]; cbn [flat_map]; [reflexivity|].
  unfold format_08b at 1. cbn [map app group_bytes].
  rewrite IH. f_equal. exact (int_base2_format_08b b Hb).
Qed.

(** ** TAG mode: decoding what was hidden *)

Lemma reveal_of_nibbles s raw :
  scan_nibbles s = flat_map nibbles_of raw -> Forall is_byte raw ->
  reveal_text_from_emoji_tags s
  = match raw with [] => None | _ => Codec.utf8_decode raw end.
Proof.
  intros Hscan Hraw. unfold reveal_text_from_emoji_tags. rewrite Hscan.
  destruct raw as [|b rest]; [reflexivity|].
  rewrite pair_nibbles_of by exact Hraw. reflexivity.
Qed.

(** What the TAG decoder returns on a string the TAG encoder built on a
    carrier free of tag characters. *)
Lemma reveal_hidden carrier payload raw :
  tag_free carrier = true -> Codec.utf8_encode payload = Some raw ->
  hide_text_in_emoji_tags carrier payload
  = Some (carrier ++ flat_map byte_to_tags raw ++ [TAG_END])
  /\ reveal_text_from_emoji_tags (carrier ++ flat_map byte_to_tags raw ++ [TAG_END])
     = match payload with [] => None | _ => Some payload end.
Proof.
  intros Hfree Henc. split.
  - unfold hide_text_in_emoji_tags, text_to_tags. now rewrite Henc.
  - rewrite (reveal_of_nibbles _ raw).
    + destruct payload as [|c rest].
      * cbn in Henc. injection Henc as <-. reflexivity.
      * pose proof (CodecFacts.utf8_encode_nonempty _ _ Henc) as Hne.
        destruct raw; [exfalso; apply Hne; congruence|].
        exact (CodecFacts.utf8_round_trip _ _ Henc).
    + rewrite scan_nibbles_skip by exact Hfree. apply scan_nibbles_tags.
    + exact (CodecFacts.utf8_encode_range _ _ Henc).
Qed.

(** C1, as stated, fails twice.  With the lock emoji as carrier the empty
    payload is hidden as carrier plus terminator, and revealing that gives
    [None], not the empty string.  With the flag of England as carrier, whose
    emoji sequence ends in U+E007F, the payload "Hi" is hidden but the scan
    stops at the carrier's own U+E007F and nothing is revealed. *)
Lemma tag_round_trip_counterexample :
  (Codec.well_formed [] = true
   /\ hide_text_in_emoji_tags [0x1F512] [] = Some [0x1F512; 0xE007F]
   /\ reveal_text_from_emoji_tags [0x1F512; 0xE007F] = None)
  /\ (Codec.well_formed [72; 105] = true
      /\ hide_text_in_emoji_tags
           [0x1F3F4; 0xE0067; 0xE0062; 0xE0065; 0xE006E; 0xE0067; 0xE007F]
           [72; 105]
         = Some [0x1F3F4; 0xE0067; 0xE0062; 0xE0065; 0xE006E; 0xE0067; 0xE007F;
                 0xE0004; 0xE0008; 0xE0006; 0xE0009; 0xE007F]
      /\ reveal_text_from_emoji_tags
           [0x1F3F4; 0xE0067; 0xE0062; 0xE0065; 0xE006E; 0xE0067; 0xE007F;
            0xE0004; 0xE0008; 0xE0006; 0xE0009; 0xE007F]
         = None).
Proof. vm_compute. repeat split; reflexivity. Qed.

(** C1, amended: for every payload of Unicode scalar values and every carrier
    that holds no tag digit and no U+E007F, hiding succeeds, and revealing
    the result gives back the payload when the payload is not empty; the
    empty payload is hidden as carrier plus terminator and reveals to
    [None]. *)
Theorem tag_round_trip carrier payload :
  Codec.well_formed payload = true -> tag_free carrier = true ->
  exists stego,
    hide_text_in_emoji_tags carrier payload = Some stego
    /\ match payload with
       | [] => stego = carrier ++ [TAG_END]
               /\ reveal_text_from_emoji_tags stego = None
       | _ => reveal_text_from_emoji_tags stego = Some payload
       end.
Proof.
  intros Hwf Hfree.
  destruct (CodecFacts.utf8_encode_total payload Hwf) as [raw Henc].
  destruct (reveal_hidden carrier payload raw Hfree Henc) as [Hhide Hreveal].
  eexists. split; [exact Hhide|].
  destruct payload as [|c rest]; [|exact Hreveal].
  cbn in Henc. injection Henc as <-. split; [reflexivity | exact Hreveal].
Qed.

Lemma tag_round_trip_witness :
  exists stego,
    hide_text_in_emoji_tags [0x1F512] [72; 105] = Some stego
    /\ reveal_text_from_emoji_tags stego = Some [72; 105].
Proof. exact (tag_round_trip [0x1F512] [72; 105] eq_refl eq_refl). Defined.

(** ** TAG mode: the alphabet *)

Lemma scan_nibbles_stop pre post :
  scan_nibbles (pre ++ TAG_END :: post) = scan_nibbles pre.
Proof.
  induction pre as [|c rest IH]; cbn [app scan_nibbles].
  - reflexivity.
  - now rewrite IH.
Qed.

(** C4, as stated, fails: the terminator is not the code point after the
    sixteen digits.  U+E0010, the code point that does follow them, neither
    is a digit nor stops the scan: between the digits 4 and 8 it is passed
    over and "H" (0x48) is revealed. *)
Lemma tag_terminator_counterexample :
  TAG_END <> TAG_BASE + 16
  /\ hide_text_in_emoji_tags [] [72]
     = Some [TAG_BASE + 4; TAG_BASE + 8; TAG_BASE + 127]
  /\ reveal_text_from_emoji_tags [TAG_BASE + 4; TAG_BASE + 16; TAG_BASE + 8]
     = Some [72].
Proof. vm_compute. repeat split; congruence. Qed.

(** C4, amended: the terminator is U+E007F, the digit range base plus 127,
    the last code point of the tag block; it lies outside the sixteen digit
    code points, the encoder appends it as the last character, and the scan
    of the decoder stops at its first occurrence.  The code point after the
    digits, base plus 16, is no digit and the scan passes over it. *)
Theorem tag_alphabet_layout :
  TAG_END = TAG_BASE + 127
  /\ is_tag_digit TAG_END = false
  /\ is_tag_digit (TAG_BASE + 16) = false
  /\ (forall rest, scan_nibbles (TAG_BASE + 16 :: rest) = scan_nibbles rest)
  /\ (forall carrier payload,
        hide_text_in_emoji_tags carrier payload
        = option_map (fun tag_text => carrier ++ tag_text ++ [TAG_END])
                     (text_to_tags payload))
  /\ (forall pre post,
        reveal_text_from_emoji_tags (pre ++ TAG_END :: post)
        = reveal_text_from_emoji_tags pre).
Proof.
  split; [reflexivity|]. split; [reflexivity|]. split; [reflexivity|].
  split; [intros rest; reflexivity|]. split.
  - intros carrier payload. unfold hide_text_in_emoji_tags.
    destruct (text_to_tags payload); reflexivity.
  - intros pre post. unfold reveal_text_from_emoji_tags.
    now rewrite scan_nibbles_stop.
Qed.

(** ** Both decoders: what lies outside the alphabet *)

Lemma tag_view_insert pre x post :
  in_tag_alphabet x = false -> tag_view (pre ++ x :: post) = tag_view (pre ++ post).
Proof.
  intros Hx. unfold tag_view. rewrite !filter_app. cbn [filter]. now rewrite Hx.
Qed.

Lemma zw_view_insert pre x post :
  in_zw_alphabet x = false -> zw_view (pre ++ x :: post) = zw_view (pre ++ post).
Proof.
  intros Hx. unfold zw_view. rewrite !filter_app. cbn [filter]. now rewrite Hx.
Qed.

Lemma reveal_by_view s1 s2 :
  tag_view s1 = tag_view s2 ->
  reveal_text_from_emoji_tags s1 = reveal_text_from_emoji_tags s2.
Proof.
  intros H. unfold reveal_text_from_emoji_tags.
  now rewrite !scan_nibbles_view, H.
Qed.

Lemma decode_binary_by_view s1 s2 :
  zw_view s1 = zw_view s2 ->
  decode_text_from_emoji_binary s1 = decode_text_from_emoji_binary s2.
Proof.
  intros H. unfold decode_text_from_emoji_binary.
  now rewrite !scan_bits_view, H.
Qed.

(** C6: each decoder's result is a function of the view of its input, the
    code points of its own alphabet that come before the first terminator.
    Two inputs with the same view decode alike, and a code point outside the
    alphabet can be inserted or removed anywhere without changing the
    result. *)
Theorem decoders_ignore_foreign_code_points :
  (forall s1 s2, tag_view s1 = tag_view s2 ->
     reveal_text_from_emoji_tags s1 = reveal_text_from_emoji_tags s2)
  /\ (forall s1 s2, zw_view s1 = zw_view s2 ->
        decode_text_from_emoji_binary s1 = decode_text_from_emoji_binary s2)
  /\ (forall pre x post, in_tag_alphabet x = false ->
        reveal_text_from_emoji_tags (pre ++ x :: post)
        = reveal_text_from_emoji_tags (pre ++ post))
  /\ (forall pre x post, in_zw_alphabet x = false ->
        decode_text_from_emoji_binary (pre ++ x :: post)
        = decode_text_from_emoji_binary (pre ++ post)).
Proof.
  split; [exact reveal_by_view|]. split; [exact decode_binary_by_view|]. split.
  - intros pre x post Hx. apply reveal_by_view, tag_view_insert, Hx.
  - intros pre x post Hx. apply decode_binary_by_view, zw_view_insert, Hx.
Qed.

Lemma decoders_ignore_foreign_code_points_witness :
  reveal_text_from_emoji_tags
    [0x1F512; 0xE0004; 97; 0x200B; 0xE0008; 98; 0xE007F; 0xE0006]
  = reveal_text_from_emoji_tags [0xE0004; 0xE0008]
  /\ decode_text_from_emoji_binary
       ([0x1F512; 0x200B] ++ 0xE0004 :: [0x200C; 0x200D])
     = decode_text_from_emoji_binary ([0x1F512; 0x200B] ++ [0x200C; 0x200D]).
Proof.
  split.
  - exact (proj1 decoders_ignore_foreign_code_points _ _ eq_refl).
  - exact (proj2 (proj2 (proj2 decoders_ignore_foreign_code_points))
             [0x1F512; 0x200B] 0xE0004 [0x200C; 0x200D] eq_refl).
Defined.

(** ** TAG mode: a lone digit *)

(** C9: when the scan collects exactly one digit the decoder returns the
    empty string (the digit has no partner and zero bytes decode to it);
    when the scan collects no digit it returns [None]. *)
Theorem tag_single_digit s :
  (length (scan_nibbles s) = 1%nat -> reveal_text_from_emoji_tags s = Some [])
  /\ (length (scan_nibbles s) = 0%nat -> reveal_text_from_emoji_tags s = None).
Proof.
  unfold reveal_text_from_emoji_tags.
  destruct (scan_nibbles s) as [|d [|d' rest]]; cbn [length];
    split; intros H; try discriminate; reflexivity.
Qed.

Lemma tag_single_digit_witness :
  reveal_text_from_emoji_tags [0x1F512; 0xE0004; 0xE007F] = Some []
  /\ reveal_text_from_emoji_tags [0x1F512; 0xE007F] = None.
Proof.
  split.
  - exact (proj1 (tag_single_digit [0x1F512; 0xE0004; 0xE007F]) eq_refl).
  - exact (proj2 (tag_single_digit [0x1F512; 0xE007F]) eq_refl).
Defined.

(** ** BINARY mode: the fallback chain *)

Lemma decode_binary_unfold s :
  decode_text_from_emoji_binary s = binary_to_text (scan_bits s).
Proof.
  unfold decode_text_from_emoji_binary.
  destruct (scan_bits s) as [|bit rest] eqn:E; reflexivity.
Qed.

Lemma binary_to_text_chain binary :
  binary_to_text binary
  = match group_bytes binary with
    | [] => None
    | raw => first_success [utf8_attempt; latin1_attempt; raw_attempt] raw
    end.
Proof.
  unfold binary_to_text, binary_to_text_traced.
  destruct (group_bytes binary) as [|b rest]; [reflexivity|].
  cbn [first_success].
  destruct (utf8_attempt (b :: rest)); [reflexivity|].
  destruct (latin1_attempt (b :: rest)); [reflexivity|].
  destruct (raw_attempt (b :: rest)); reflexivity.
Qed.

(** C5, as stated, fails: with three bits collected no complete byte is
    grouped; the first success of the chain on zero bytes would be the UTF-8
    attempt, with the empty string, and the decoder returns [None], by the
    guard that comes before the chain. *)
Lemma binary_fallback_chain_counterexample :
  scan_bits [0x1F512; 0x200B; 0x200C; 0x200B; 0x200D] = [false; true; false]
  /\ group_bytes (scan_bits [0x1F512; 0x200B; 0x200C; 0x200B; 0x200D]) = []
  /\ first_success [utf8_attempt; latin1_attempt; raw_attempt]
       (group_bytes (scan_bits [0x1F512; 0x200B; 0x200C; 0x200B; 0x200D]))
     = Some []
  /\ decode_text_from_emoji_binary [0x1F512; 0x200B; 0x200C; 0x200B; 0x200D]
     = None
  /\ decode_text_from_emoji_binary [0x1F512; 0x200B; 0x200C; 0x200B; 0x200D]
     <> first_success [utf8_attempt; latin1_attempt; raw_attempt]
          (group_bytes (scan_bits [0x1F512; 0x200B; 0x200C; 0x200B; 0x200D])).
Proof. vm_compute. repeat split; try reflexivity. discriminate. Qed.

(** C5, amended: when the collected bits give no complete byte the BINARY
    decoder returns [None]; when they give at least one, it returns the first
    success of the UTF-8 attempt, the Latin-1 attempt and the raw code point
    mapping, in that order.  The UTF-8 attempt succeeds with [r] exactly when
    the bytes decode to [r] and ten times the number of control characters of
    [r] is at most its length, a control character being a code point below
    32 other than 10 (newline), 13 (carriage return) and 9 (tab); the other
    two attempts map every byte to the code point of its value.  So the
    result is the UTF-8 text when it passes the filter, and the Latin-1
    reading of the bytes when the text fails the filter or the bytes are not
    UTF-8. *)
Theorem binary_fallback_chain :
  (forall s,
     group_bytes (scan_bits s) = [] -> decode_text_from_emoji_binary s = None)
  /\ (forall s,
        group_bytes (scan_bits s) <> [] ->
        decode_text_from_emoji_binary s
        = first_success [utf8_attempt; latin1_attempt; raw_attempt]
            (group_bytes (scan_bits s)))
  /\ (forall raw r,
        utf8_attempt raw = Some r
        <-> Codec.utf8_decode raw = Some r
            /\ 10 * Z.of_nat (length (filter is_control r))
               <= Z.of_nat (length r))
  /\ (forall c, is_control c = true <-> c < 32 /\ c <> 10 /\ c <> 13 /\ c <> 9)
  /\ (forall raw, latin1_attempt raw = Some raw /\ raw_attempt raw = Some raw)
  /\ (forall s r,
        group_bytes (scan_bits s) <> [] ->
        Codec.utf8_decode (group_bytes (scan_bits s)) = Some r ->
        10 * Z.of_nat (length (filter is_control r)) <= Z.of_nat (length r) ->
        decode_text_from_emoji_binary s = Some r)
  /\ (forall s r,
        group_bytes (scan_bits s) <> [] ->
        Codec.utf8_decode (group_bytes (scan_bits s)) = Some r ->
        Z.of_nat (length r) < 10 * Z.of_nat (length (filter is_control r)) ->
        decode_text_from_emoji_binary s = Some (group_bytes (scan_bits s)))
  /\ (forall s,
        group_bytes (scan_bits s) <> [] ->
        Codec.utf8_decode (group_bytes (scan_bits s)) = None ->
        decode_text_from_emoji_binary s = Some (group_bytes (scan_bits s))).
Proof.
  assert (Hattempt : forall raw r,
             utf8_attempt raw = Some r
             <-> Codec.utf8_decode raw = Some r
                 /\ 10 * Z.of_nat (length (filter is_control r))
                    <= Z.of_nat (length r)).
  { intros raw r. unfold utf8_attempt, plausible, control_count.
    destruct (Codec.utf8_decode raw) as [r'|];
      [| split; [discriminate | intros [H _]; discriminate]].
    destruct (_ <=? _) eqn:T; split.
    - intros [= <-]. split; [reflexivity | lia].
    - intros [[= <-] _]. reflexivity.
    - discriminate.
    - intros [[= <-] H]. lia. }
  assert (Hchain : forall s,
             group_bytes (scan_bits s) <> [] ->
             decode_text_from_emoji_binary s
             = first_success [utf8_attempt; latin1_attempt; raw_attempt]
                 (group_bytes (scan_bits s))).
  { intros s Hne. rewrite decode_binary_unfold, binary_to_text_chain.
    destruct (group_bytes (scan_bits s)); [exfalso; apply Hne|]; reflexivity. }
  split; [| split; [| split; [| split; [| split; [| split; [| split]]]]]].
  - intros s Hnone. rewrite decode_binary_unfold, binary_to_text_chain.
    now rewrite Hnone.
  - exact Hchain.
  - exact Hattempt.
  - intros c. unfold is_control. lia.
  - intros raw. split; reflexivity.
  - intros s r Hne Hu Hfilter. rewrite (Hchain s Hne). cbn [first_success].
    now rewrite (proj2 (Hattempt _ r) (conj Hu Hfilter)).
  - intros s r Hne Hu Hfilter. rewrite (Hchain s Hne). cbn [first_success].
    destruct (utf8_attempt (group_bytes (scan_bits s))) as [r'|] eqn:Ha;
      [|reflexivity].
    apply Hattempt in Ha as [Hu' Hok]. rewrite Hu in Hu'.
    injection Hu' as <-. lia.
  - intros s Hne Hu. rewrite (Hchain s Hne). cbn [first_success].
    unfold utf8_attempt. now rewrite Hu.
Qed.

(** The UTF-8 text that passes the filter (the bytes C3 A9 after the lock
    emoji), the Latin-1 reading of a UTF-8 text that fails it (01 C3 A9: one
    control character in two), and the Latin-1 reading of bytes that are not
    UTF-8 (FF). *)
Lemma binary_fallback_chain_witness :
  decode_text_from_emoji_binary
    [0x1F512;
     0x200C; 0x200C; 0x200B; 0x200B; 0x200B; 0x200B; 0x200C; 0x200C;
     0x200C; 0x200B; 0x200C; 0x200B; 0x200C; 0x200B; 0x200B; 0x200C;
     0x200D]
  = Some [0xE9]
  /\ decode_text_from_emoji_binary
       [0x200B; 0x200B; 0x200B; 0x200B; 0x200B; 0x200B; 0x200B; 0x200C;
        0x200C; 0x200C; 0x200B; 0x200B; 0x200B; 0x200B; 0x200C; 0x200C;
        0x200C; 0x200B; 0x200C; 0x200B; 0x200C; 0x200B; 0x200B; 0x200C;
        0x200D]
     = Some [1; 0xC3; 0xA9]
  /\ decode_text_from_emoji_binary
       [0x1F512; 0x200C; 0x200C; 0x200C; 0x200C; 0x200C; 0x200C; 0x200C; 0x200C;
        0x200D]
     = Some [255].
Proof.
  destruct binary_fallback_chain
    as [_ [_ [_ [_ [_ [Hpass [Hfilter Hinvalid]]]]]]].
  split; [| split].
  - apply Hpass.
    + vm_compute. discriminate.
    + vm_compute. reflexivity.
    + vm_compute. discriminate.
  - apply (Hfilter
             [0x200B; 0x200B; 0x200B; 0x200B; 0x200B; 0x200B; 0x200B; 0x200C;
              0x200C; 0x200C; 0x200B; 0x200B; 0x200B; 0x200B; 0x200C; 0x200C;
              0x200C; 0x200B; 0x200C; 0x200B; 0x200C; 0x200B; 0x200B; 0x200C;
              0x200D] [1; 0xE9]).
    + vm_compute. discriminate.
    + vm_compute. reflexivity.
    + vm_compute. reflexivity.
  - apply (Hinvalid
             [0x1F512; 0x200C; 0x200C; 0x200C; 0x200C; 0x200C; 0x200C; 0x200C;
              0x200C; 0x200D]).
    + vm_compute. discriminate.
    + vm_compute. reflexivity.
Defined.

(** ** BINARY mode: decoding what was encoded *)

(** What the BINARY decoder returns on a string the BINARY encoder built on a
    carrier free of zero-width characters: nothing for the empty payload, the
    payload when it passes the control character filter, and else the Latin-1
    reading of the payload's UTF-8 bytes. *)
Lemma decode_encoded_binary carrier payload raw :
  zw_free carrier = true -> Codec.utf8_encode payload = Some raw ->
  exists stego,
    encode_text_in_emoji_binary carrier payload = Some stego
    /\ decode_text_from_emoji_binary stego
       = match payload with
         | [] => None
         | _ => if plausible payload then Some payload else Some raw
         end.
Proof.
  intros Hfree Henc. unfold encode_text_in_emoji_binary, text_to_binary.
  rewrite Henc. eexists. split; [reflexivity|].
  rewrite decode_binary_unfold, scan_bits_skip by exact Hfree.
  cbn [app]. rewrite scan_bits_hidden.
  rewrite binary_to_text_chain, group_bytes_format
    by exact (CodecFacts.utf8_encode_range _ _ Henc).
  destruct payload as [|c rest].
  - cbn in Henc. injection Henc as <-. reflexivity.
  - pose proof (CodecFacts.utf8_encode_nonempty _ _ Henc) as Hne.
    destruct raw as [|b more]; [exfalso; apply Hne; congruence|].
    cbn [first_success]. unfold utf8_attempt.
    rewrite (CodecFacts.utf8_round_trip _ _ Henc).
    destruct (plausible (c :: rest)); reflexivity.
Qed.

(** C2, as stated, fails four times, each with the lock emoji or an emoji
    sequence as carrier: the empty payload decodes to [None]; under the
    carrier man + ZWJ + woman the scan stops at the carrier's own U+200D and
    "Hi" decodes to [None]; the payload U+0001 U+00E9, half of it control
    characters, fails the filter and comes back as the three Latin-1
    characters of its UTF-8 bytes; a lone surrogate cannot be encoded. *)
Lemma binary_round_trip_counterexample :
  (encode_text_in_emoji_binary [0x1F512] [] = Some [0x1F512; 0x200D]
   /\ decode_text_from_emoji_binary [0x1F512; 0x200D] = None)
  /\ (exists stego,
        encode_text_in_emoji_binary [0x1F468; 0x200D; 0x1F469] [72; 105]
        = Some stego
        /\ decode_text_from_emoji_binary stego = None)
  /\ (exists stego,
        encode_text_in_emoji_binary [0x1F512] [1; 0xE9] = Some stego
        /\ decode_text_from_emoji_binary stego = Some [1; 0xC3; 0xA9])
  /\ encode_text_in_emoji_binary [0x1F512] [0xD800] = None.
Proof.
  split; [| split; [| split]].
  - vm_compute. split; reflexivity.
  - eexists. split; [vm_compute; reflexivity | vm_compute; reflexivity].
  - eexists. split; [vm_compute; reflexivity | vm_compute; reflexivity].
  - vm_compute. reflexivity.
Qed.

(** C2, amended: for every non-empty payload of Unicode scalar values that
    either passes the control character filter (ten times its number of
    control characters other than newline, carriage return and tab is at
    most its length) or is pure ASCII, and for every carrier that holds none
    of U+200B, U+200C, U+200D, encoding succeeds and decoding the result
    gives back the payload. *)
Theorem binary_round_trip carrier payload :
  Codec.well_formed payload = true -> payload <> [] ->
  zw_free carrier = true ->
  plausible payload = true \/ forallb is_ascii payload = true ->
  exists stego,
    encode_text_in_emoji_binary carrier payload = Some stego
    /\ decode_text_from_emoji_binary stego = Some payload.
Proof.
  intros Hwf Hne Hfree Hok.
  destruct (CodecFacts.utf8_encode_total payload Hwf) as [raw Henc].
  destruct (decode_encoded_binary carrier payload raw Hfree Henc)
    as [stego [Hstego Hdec]].
  exists stego. split; [exact Hstego|]. rewrite Hdec.
  destruct payload as [|c rest]; [exfalso; apply Hne; reflexivity|].
  destruct (plausible (c :: rest)) eqn:Hp; [reflexivity|].
  destruct Hok as [Hok | Hascii]; [discriminate|].
  rewrite (CodecFacts.utf8_encode_ascii _ Hascii) in Henc. symmetry. exact Henc.
Qed.

Lemma binary_round_trip_witness :
  exists stego,
    encode_text_in_emoji_binary [0x1F512] [72; 105] = Some stego
    /\ decode_text_from_emoji_binary stego = Some [72; 105].
Proof.
  refine (binary_round_trip [0x1F512] [72; 105] eq_refl _ eq_refl
            (or_introl eq_refl)).
  discriminate.
Defined.

(** ** BINARY mode: incomplete groups and totality *)

Lemma group_bytes_short extra :
  (length extra < 8)%nat -> group_bytes extra = [].
Proof.
  intros H.
  destruct extra as [|d7 [|d6 [|d5 [|d4 [|d3 [|d2 [|d1 [|d0 rest]]]]]]]];
    try reflexivity.
  cbn [length] in H. lia.
Qed.

Lemma group_bytes_complete binary :
  (8 <= length binary)%nat ->
  exists b rest, group_bytes binary = b :: rest /\ is_byte b.
Proof.
  intros H.
  destruct binary as [|d7 [|d6 [|d5 [|d4 [|d3 [|d2 [|d1 [|d0 rest]]]]]]]];
    cbn [length] in H; try lia.
  cbn [group_bytes]. eexists _, _. split; [reflexivity | apply int_base2_byte].
Qed.

(** Bits after the last complete group of eight do not reach the bytes. *)
Lemma group_bytes_app_short k : forall whole extra,
  length whole = (8 * k)%nat -> (length extra < 8)%nat ->
  group_bytes (whole ++ extra) = group_bytes whole.
Proof.
  induction k as [|k IH]; intros whole extra Hlen Hshort.
  - destruct whole; [|discriminate]. cbn [app group_bytes].
    now apply group_bytes_short.
  - destruct whole as [|d7 [|d6 [|d5 [|d4 [|d3 [|d2 [|d1 [|d0 rest]]]]]]]];
      cbn [length] in Hlen; try lia.
    cbn [app group_bytes]. f_equal. apply IH; lia.
Qed.

Lemma traced_total binary b rest :
  group_bytes binary = b :: rest ->
  exists st text, binary_to_text_traced binary = Some (st, text) /\ st <> ViaRaw.
Proof.
  intros H. unfold binary_to_text_traced. rewrite H.
  destruct (utf8_attempt (b :: rest)) as [text|].
  - exists ViaUtf8, text. split; [reflexivity | discriminate].
  - exists ViaLatin1, (b :: rest). split; [reflexivity | discriminate].
Qed.

(** One byte decodes to the one character of that code point, whichever
    attempt produces it. *)
Lemma single_byte_text d7 d6 d5 d4 d3 d2 d1 d0 extra :
  (length extra < 8)%nat ->
  binary_to_text ([d7; d6; d5; d4; d3; d2; d1; d0] ++ extra)
  = Some [int_base2 [d7; d6; d5; d4; d3; d2; d1; d0]].
Proof.
  intros H. unfold binary_to_text, binary_to_text_traced.
  rewrite (group_bytes_app_short 1) by (try reflexivity; exact H).
  destruct d7, d6, d5, d4, d3, d2, d1, d0; vm_compute; reflexivity.
Qed.

(** C7, as stated, fails: three bits before the separator is a bit-string
    whose length is not a multiple of 8, and it decodes to [None]. *)
Lemma binary_truncation_counterexample :
  scan_bits [0x1F512; 0x200B; 0x200C; 0x200B; 0x200D] = [false; true; false]
  /\ (3 mod 8 <> 0)%nat
  /\ decode_text_from_emoji_binary [0x1F512; 0x200B; 0x200C; 0x200B; 0x200D]
     = None.
Proof. vm_compute. repeat split; congruence. Qed.

(** C7, amended: when the collected bit-string holds at least one complete
    group of eight, decoding succeeds and its result is that of the complete
    groups alone, the one to seven bits after the last complete group being
    dropped; when exactly eleven bits are collected the result is the one
    character whose code point is the value of the first eight bits; when
    fewer than eight bits are collected the result is [None]. *)
Theorem binary_truncation :
  (forall s whole extra,
     scan_bits s = whole ++ extra ->
     (0 < length whole)%nat -> (length whole mod 8 = 0)%nat ->
     (length extra < 8)%nat ->
     decode_text_from_emoji_binary s = binary_to_text whole
     /\ exists text, decode_text_from_emoji_binary s = Some text)
  /\ (forall s,
        length (scan_bits s) = 11%nat ->
        decode_text_from_emoji_binary s
        = Some [int_base2 (firstn 8 (scan_bits s))])
  /\ (forall s,
        (length (scan_bits s) < 8)%nat ->
        decode_text_from_emoji_binary s = None).
Proof.
  split; [| split].
  - intros s whole extra Hs Hpos Hmod Hshort.
    rewrite decode_binary_unfold, Hs.
    assert (Hlen : length whole = (8 * (length whole / 8))%nat).
    { pose proof (Nat.div_mod_eq (length whole) 8). lia. }
    assert (Hgroup : group_bytes (whole ++ extra) = group_bytes whole)
      by (eapply group_bytes_app_short; eassumption).
    assert (Heq : binary_to_text (whole ++ extra) = binary_to_text whole)
      by (unfold binary_to_text, binary_to_text_traced; now rewrite Hgroup).
    split; [exact Heq|]. rewrite Heq.
    destruct (group_bytes_complete whole) as [b [rest [Hb _]]]; [lia|].
    destruct (traced_total whole b rest Hb) as [st [text [Ht _]]].
    exists text. unfold binary_to_text. now rewrite Ht.
  - intros s Hlen. rewrite decode_binary_unfold.
    destruct (scan_bits s)
      as [|d7 [|d6 [|d5 [|d4 [|d3 [|d2 [|d1 [|d0 [|e2 [|e1 [|e0 [|x rest]]]]]]]]]]]];
      try discriminate.
    exact (single_byte_text d7 d6 d5 d4 d3 d2 d1 d0 [e2; e1; e0] ltac:(cbn; lia)).
  - intros s Hlen. rewrite decode_binary_unfold.
    unfold binary_to_text, binary_to_text_traced.
    now rewrite group_bytes_short.
Qed.

Lemma binary_truncation_witness :
  decode_text_from_emoji_binary
    [0x1F512; 0x200B; 0x200C; 0x200B; 0x200B; 0x200B; 0x200B; 0x200B; 0x200C;
     0x200C; 0x200B; 0x200C; 0x200D]
  = Some [65]
  /\ decode_text_from_emoji_binary
       [0x200B; 0x200C; 0x200B; 0x200B; 0x200B; 0x200B; 0x200B; 0x200C;
        0x200C; 0x200B; 0x200C; 0x200D]
     = binary_to_text [false; true; false; false; false; false; false; true].
Proof.
  split.
  - exact (proj1 (proj2 binary_truncation)
             [0x1F512; 0x200B; 0x200C; 0x200B; 0x200B; 0x200B; 0x200B; 0x200B;
              0x200C; 0x200C; 0x200B; 0x200C; 0x200D] eq_refl).
  - refine (proj1 (proj1 binary_truncation
              [0x200B; 0x200C; 0x200B; 0x200B; 0x200B; 0x200B; 0x200B; 0x200C;
               0x200C; 0x200B; 0x200C; 0x200D]
              [false; true; false; false; false; false; false; true]
              [true; false; true] eq_refl _ eq_refl _)); cbn; lia.
Defined.

(** C10: when at least eight bit characters are collected (they come before
    the first separator, or no separator follows), the BINARY decoder returns
    a text and never [None]; the text comes from the UTF-8 or the Latin-1
    [return], never from the raw code point mapping, because the Latin-1
    attempt succeeds on every byte sequence. *)
Theorem binary_decode_total s :
  (8 <= length (scan_bits s))%nat ->
  (exists st text,
     binary_to_text_traced (scan_bits s) = Some (st, text)
     /\ st <> ViaRaw
     /\ decode_text_from_emoji_binary s = Some text)
  /\ (forall raw, latin1_attempt raw <> None).
Proof.
  intros H. split; [| intros raw; discriminate].
  destruct (group_bytes_complete _ H) as [b [rest [Hb _]]].
  destruct (traced_total _ b rest Hb) as [st [text [Ht Hst]]].
  exists st, text. split; [exact Ht|]. split; [exact Hst|].
  rewrite decode_binary_unfold. unfold binary_to_text. now rewrite Ht.
Qed.

Lemma binary_decode_total_witness :
  (exists st text,
     binary_to_text_traced (scan_bits (repeat 0x200C 9)) = Some (st, text)
     /\ st <> ViaRaw
     /\ decode_text_from_emoji_binary (repeat 0x200C 9) = Some text)
  /\ (forall raw, latin1_attempt raw <> None).
Proof. apply (binary_decode_total (repeat 0x200C 9)). cbn. lia. Defined.

(** ** The two alphabets do not meet *)

Lemma scan_nibbles_no_digit s : digit_free s = true -> scan_nibbles s = [].
Proof.
  unfold digit_free.
  induction s as [|c rest IH]; cbn [forallb scan_nibbles]; [reflexivity|].
  intros [Hc Hrest]%andb_true_iff. apply negb_true_iff in Hc. rewrite Hc.
  destruct (c =? TAG_END); auto.
Qed.

Lemma scan_bits_no_zw s : zw_free s = true -> scan_bits s = [].
Proof.
  intros H. rewrite <- (app_nil_r s). now rewrite scan_bits_skip.
Qed.

Lemma tag_free_digit_free s : tag_free s = true -> digit_free s = true.
Proof.
  unfold tag_free, digit_free, in_tag_alphabet.
  induction s as [|c rest IH]; cbn [forallb]; [reflexivity|].
  intros [Hc Hrest]%andb_true_iff. rewrite (IH Hrest).
  apply negb_true_iff, orb_false_iff in Hc as [-> _]. reflexivity.
Qed.

(** The characters the BINARY encoder emits are no tag digits. *)
Lemma hidden_chars_digit_free binary :
  digit_free (map (fun bit => ZERO_WIDTH_CHARS (bit_key bit)) binary
              ++ [ZERO_WIDTH_CHARS key_sep]) = true.
Proof.
  unfold digit_free. rewrite forallb_app. apply andb_true_iff. split.
  - induction binary as [|bit rest IH]; [reflexivity|].
    cbn [map forallb]. rewrite IH. destruct bit; reflexivity.
  - reflexivity.
Qed.

(** The characters the TAG encoder emits are no zero-width characters. *)
Lemma tag_text_zw_free raw :
  zw_free (flat_map byte_to_tags raw ++ [TAG_END]) = true.
Proof.
  unfold zw_free. rewrite forallb_app. apply andb_true_iff. split.
  - induction raw as [|b rest IH]; [reflexivity|].
    cbn [flat_map]. rewrite forallb_app, IH, andb_true_r.
    unfold byte_to_tags. cbv zeta. cbn [forallb].
    pose proof (nibble_range (Z.shiftr b 4)) as Hh.
    pose proof (nibble_range b) as Hl.
    unfold in_zw_alphabet, TAG_BASE. cbn [ZERO_WIDTH_CHARS]. lia.
  - reflexivity.
Qed.

(** C8: for every carrier holding no code point of either alphabet and every
    payload, the BINARY encoding of the payload reveals nothing in TAG mode
    and the TAG encoding decodes to nothing in BINARY mode; an encoder fails
    only on a payload that is not made of Unicode scalar values. *)
Theorem scheme_isolation carrier payload :
  tag_free carrier = true -> zw_free carrier = true ->
  match encode_text_in_emoji_binary carrier payload with
  | Some stego => reveal_text_from_emoji_tags stego = None
  | None => Codec.well_formed payload = false
  end
  /\ match hide_text_in_emoji_tags carrier payload with
     | Some stego => decode_text_from_emoji_binary stego = None
     | None => Codec.well_formed payload = false
     end.
Proof.
  intros Htag Hzw.
  unfold encode_text_in_emoji_binary, text_to_binary,
    hide_text_in_emoji_tags, text_to_tags.
  destruct (Codec.utf8_encode payload) as [raw|] eqn:Henc.
  - split.
    + unfold reveal_text_from_emoji_tags. rewrite scan_nibbles_no_digit; [reflexivity|].
      unfold digit_free. rewrite forallb_app.
      apply andb_true_iff. split.
      * exact (tag_free_digit_free _ Htag).
      * apply hidden_chars_digit_free.
    + unfold decode_text_from_emoji_binary. rewrite scan_bits_no_zw; [reflexivity|].
      unfold zw_free. rewrite forallb_app.
      apply andb_true_iff. split; [exact Hzw | apply tag_text_zw_free].
  - split; exact (CodecFacts.utf8_encode_fails _ Henc).
Qed.

Lemma scheme_isolation_witness :
  reveal_text_from_emoji_tags
    [0x1F512; 0x200B; 0x200C; 0x200B; 0x200B; 0x200C; 0x200B; 0x200B; 0x200B;
     0x200D] = None
  /\ decode_text_from_emoji_binary [0x1F512; 0xE0004; 0xE0008; 0xE007F] = None.
Proof. exact (scheme_isolation [0x1F512] [72] eq_refl eq_refl). Defined.

(** ** The dispatcher *)

Lemma space_outside_tag_alphabet c :
  py_isspace c = true -> in_tag_alphabet c = false.
Proof. unfold py_isspace, in_tag_alphabet, is_tag_digit, TAG_BASE, TAG_END. lia. Qed.

Lemma space_outside_zw_alphabet c :
  py_isspace c = true -> in_zw_alphabet c = false.
Proof. unfold py_isspace, in_zw_alphabet. cbn [ZERO_WIDTH_CHARS]. lia. Qed.

Section Strip.
Variable f : Z -> bool.
Hypothesis f_space : forall c, py_isspace c = true -> f c = false.

Lemma filter_lstrip s : filter f (lstrip s) = filter f s.
Proof.
  induction s as [|c rest IH]; cbn [lstrip]; [reflexivity|].
  destruct (py_isspace c) eqn:Hc; [|reflexivity].
  cbn [filter]. now rewrite (f_space c Hc).
Qed.

(** [strip] removes nothing a filter on non-space characters keeps. *)
Lemma filter_strip s : filter f (strip s) = filter f s.
Proof.
  unfold strip.
  now rewrite filter_rev, filter_lstrip, filter_rev, rev_involutive,
    filter_lstrip.
Qed.
End Strip.

Lemma reveal_strip s :
  reveal_text_from_emoji_tags (strip s) = reveal_text_from_emoji_tags s.
Proof.
  apply reveal_by_view. unfold tag_view.
  now rewrite (filter_strip _ space_outside_tag_alphabet).
Qed.

Lemma decode_binary_strip s :
  decode_text_from_emoji_binary (strip s) = decode_text_from_emoji_binary s.
Proof.
  apply decode_binary_by_view. unfold zw_view.
  now rewrite (filter_strip _ space_outside_zw_alphabet).
Qed.

(** The dispatcher in terms of the two decoders applied to its input. *)
Lemma decode_auto_unfold s :
  decode_auto s
  = match strip s with
    | [] => InputRequired
    | _ =>
        match reveal_text_from_emoji_tags s with
        | Some (c :: text) => MessageFound (c :: text) TAG
        | _ =>
            match decode_text_from_emoji_binary s with
            | Some (c :: text) => MessageFound (c :: text) BINARY
            | _ => NoMessage
            end
        end
    end.
Proof.
  unfold decode_auto, decode_message.
  rewrite <- (reveal_strip s), <- (decode_binary_strip s).
  destruct (strip s) as [|c0 rest0]; [reflexivity|].
  destruct (reveal_text_from_emoji_tags (c0 :: rest0)) as [[|c text]|];
    cbn [truthy]; try reflexivity;
    destruct (decode_text_from_emoji_binary (c0 :: rest0)) as [[|c' text']|];
    reflexivity.
Qed.

Lemma strip_empty_nothing s :
  strip s = [] ->
  reveal_text_from_emoji_tags s = None
  /\ decode_text_from_emoji_binary s = None.
Proof.
  intros H. rewrite <- (reveal_strip s), <- (decode_binary_strip s), H.
  split; reflexivity.
Qed.

Lemma decode_auto_tag s text :
  reveal_text_from_emoji_tags s = Some text -> text <> [] ->
  decode_auto s = MessageFound text TAG.
Proof.
  intros Hr Hne. rewrite decode_auto_unfold.
  destruct (strip s) as [|c0 rest0] eqn:Hs.
  - destruct (strip_empty_nothing s Hs) as [Hnone _]. congruence.
  - rewrite Hr. destruct text; [exfalso; apply Hne; reflexivity | reflexivity].
Qed.

Lemma decode_auto_binary s text :
  truthy (reveal_text_from_emoji_tags s) = false ->
  decode_text_from_emoji_binary s = Some text -> text <> [] ->
  decode_auto s = MessageFound text BINARY.
Proof.
  intros Hr Hb Hne. rewrite decode_auto_unfold.
  destruct (strip s) as [|c0 rest0] eqn:Hs.
  - destruct (strip_empty_nothing s Hs) as [_ Hnone]. congruence.
  - destruct (reveal_text_from_emoji_tags s) as [[|c text']|];
      try discriminate;
      rewrite Hb; (destruct text; [exfalso; apply Hne; reflexivity | reflexivity]).
Qed.

Lemma decode_auto_nothing s :
  truthy (reveal_text_from_emoji_tags s) = false ->
  truthy (decode_text_from_emoji_binary s) = false ->
  decode_auto s = NoMessage \/ decode_auto s = InputRequired.
Proof.
  intros Hr Hb. rewrite decode_auto_unfold.
  destruct (strip s); [right; reflexivity|]. left.
  destruct (reveal_text_from_emoji_tags s) as [[|c text]|]; try discriminate;
    destruct (decode_text_from_emoji_binary s) as [[|c' text']|];
    try discriminate; reflexivity.
Qed.

(** C3, as stated, fails.  (1) The empty payload, hidden in TAG mode, is
    reported as no message.  (2) The payload U+0001 U+00E9, encoded in BINARY
    mode, is reported as three other characters.  (3) A carrier that itself
    holds the tag digits 4 and 8 makes the BINARY encoding of "Hi" be
    reported as "H", found in TAG mode.  (4) A lone surrogate cannot be
    encoded.  (5) On a tag digit followed by the eight bits of "A" the TAG
    decoder does yield a result, the empty string, and the dispatcher falls
    back to BINARY all the same. *)
Lemma auto_detection_counterexample :
  (hide_text_in_emoji_tags [0x1F512] [] = Some [0x1F512; 0xE007F]
   /\ decode_auto [0x1F512; 0xE007F] = NoMessage)
  /\ (exists stego,
        encode_text_in_emoji_binary [0x1F512] [1; 0xE9] = Some stego
        /\ decode_auto stego = MessageFound [1; 0xC3; 0xA9] BINARY)
  /\ (exists stego,
        encode_text_in_emoji_binary [0x1F512; 0xE0004; 0xE0008] [72; 105]
        = Some stego
        /\ decode_auto stego = MessageFound [72] TAG)
  /\ hide_text_in_emoji_tags [0x1F512] [0xD800] = None
  /\ (reveal_text_from_emoji_tags
        [0xE0004; 0x200B; 0x200C; 0x200B; 0x200B; 0x200B; 0x200B; 0x200B;
         0x200C; 0x200D] = Some []
      /\ decode_auto
           [0xE0004; 0x200B; 0x200C; 0x200B; 0x200B; 0x200B; 0x200B; 0x200B;
            0x200C; 0x200D] = MessageFound [65] BINARY).
Proof.
  split; [| split; [| split; [| split]]].
  - vm_compute. split; reflexivity.
  - eexists. split; [vm_compute; reflexivity | vm_compute; reflexivity].
  - eexists. split; [vm_compute; reflexivity | vm_compute; reflexivity].
  - vm_compute. reflexivity.
  - vm_compute. split; reflexivity.
Qed.

(** C3, amended.  For every non-empty payload of Unicode scalar values:
    hidden in TAG mode on a carrier without tag digits and U+E007F, the
    dispatcher in auto mode reports the payload with mode TAG; encoded in
    BINARY mode on a carrier without tag digits and without U+200B, U+200C,
    U+200D, the payload passing the control character filter or being pure
    ASCII, it reports the payload with mode BINARY.  On every input the
    dispatcher reports the TAG decoder's text when that is a non-empty
    string; it falls back to the BINARY decoder exactly when the TAG decoder
    yields [None] or the empty string, and reports a message for no input on
    which both yield [None] or the empty string. *)
Theorem auto_detection :
  (forall carrier payload,
     Codec.well_formed payload = true -> payload <> [] ->
     tag_free carrier = true ->
     exists stego,
       hide_text_in_emoji_tags carrier payload = Some stego
       /\ decode_auto stego = MessageFound payload TAG)
  /\ (forall carrier payload,
        Codec.well_formed payload = true -> payload <> [] ->
        digit_free carrier = true -> zw_free carrier = true ->
        plausible payload = true \/ forallb is_ascii payload = true ->
        exists stego,
          encode_text_in_emoji_binary carrier payload = Some stego
          /\ decode_auto stego = MessageFound payload BINARY)
  /\ (forall s text,
        reveal_text_from_emoji_tags s = Some text -> text <> [] ->
        decode_auto s = MessageFound text TAG)
  /\ (forall s text,
        truthy (reveal_text_from_emoji_tags s) = false ->
        decode_text_from_emoji_binary s = Some text -> text <> [] ->
        decode_auto s = MessageFound text BINARY)
  /\ (forall s,
        truthy (reveal_text_from_emoji_tags s) = false ->
        truthy (decode_text_from_emoji_binary s) = false ->
        decode_auto s = NoMessage \/ decode_auto s = InputRequired).
Proof.
  split; [| split; [| split; [| split]]].
  - intros carrier payload Hwf Hne Hfree.
    destruct (CodecFacts.utf8_encode_total payload Hwf) as [raw Henc].
    destruct (reveal_hidden carrier payload raw Hfree Henc) as [Hhide Hreveal].
    eexists. split; [exact Hhide|].
    apply decode_auto_tag; [|exact Hne].
    rewrite Hreveal. destruct payload; [exfalso; apply Hne|]; reflexivity.
  - intros carrier payload Hwf Hne Hdigit Hzw Hok.
    destruct (CodecFacts.utf8_encode_total payload Hwf) as [raw Henc].
    assert (Hround : exists stego,
               encode_text_in_emoji_binary carrier payload = Some stego
               /\ decode_text_from_emoji_binary stego = Some payload).
    { destruct (decode_encoded_binary carrier payload raw Hzw Henc)
        as [stego [Hstego Hdec]].
      exists stego. split; [exact Hstego|]. rewrite Hdec.
      destruct payload as [|c rest]; [exfalso; apply Hne; reflexivity|].
      destruct (plausible (c :: rest)) eqn:Hp; [reflexivity|].
      destruct Hok as [Hok | Hascii]; [discriminate|].
      rewrite (CodecFacts.utf8_encode_ascii _ Hascii) in Henc.
      symmetry. exact Henc. }
    destruct Hround as [stego [Hstego Hdec]].
    exists stego. split; [exact Hstego|].
    apply decode_auto_binary; [| exact Hdec | exact Hne].
    unfold encode_text_in_emoji_binary, text_to_binary in Hstego.
    rewrite Henc in Hstego. injection Hstego as <-.
    unfold reveal_text_from_emoji_tags. rewrite scan_nibbles_no_digit; [reflexivity|].
    unfold digit_free. rewrite forallb_app. apply andb_true_iff.
    split; [exact Hdigit | apply hidden_chars_digit_free].
  - exact decode_auto_tag.
  - exact decode_auto_binary.
  - exact decode_auto_nothing.
Qed.

Lemma auto_detection_witness :
  (exists stego,
     hide_text_in_emoji_tags [0x1F512] [72; 105] = Some stego
     /\ decode_auto stego = MessageFound [72; 105] TAG)
  /\ (exists stego,
        encode_text_in_emoji_binary [0x1F512] [72; 105] = Some stego
        /\ decode_auto stego = MessageFound [72; 105] BINARY)
  /\ (decode_auto [0x1F512] = NoMessage \/ decode_auto [0x1F512] = InputRequired).
Proof.
  assert (Hne : [72; 105] <> @nil Z) by discriminate.
  split; [| split].
  - exact (proj1 auto_detection [0x1F512] [72; 105] eq_refl Hne eq_refl).
  - exact (proj1 (proj2 auto_detection) [0x1F512] [72; 105] eq_refl Hne
             eq_refl eq_refl (or_introl eq_refl)).
  - apply (proj2 (proj2 (proj2 (proj2 auto_detection))) [0x1F512]);
      vm_compute; reflexivity.
Defined.

(** * Further properties of the codecs and of the two tabs *)

(** ** Sizes *)

Lemma encode_code_point_length c bs :
  Codec.encode_code_point c = Some bs -> (1 <= length bs <= 4)%nat.
Proof.
  unfold Codec.encode_code_point.
  repeat match goal with |- context [if ?b then _ else _] => destruct b end;
    intros [= <-]; cbn [length]; lia.
Qed.

Lemma utf8_encode_length text raw :
  Codec.utf8_encode text = Some raw ->
  (length text <= length raw <= 4 * length text)%nat.
Proof.
  revert raw. induction text as [|c rest IH]; cbn [Codec.utf8_encode].
  - intros raw [= <-]. cbn. lia.
  - intros raw. destruct (Codec.encode_code_point c) as [bs|] eqn:Hc; [|discriminate].
    destruct (Codec.utf8_encode rest) as [more|]; [|discriminate].
    intros [= <-]. pose proof (encode_code_point_length c bs Hc).
    pose proof (IH more eq_refl). rewrite length_app. cbn [length]. lia.
Qed.

Lemma flat_map_byte_to_tags_length raw :
  length (flat_map byte_to_tags raw) = (2 * length raw)%nat.
Proof.
  induction raw as [|b rest IH]; [reflexivity|].
  cbn [flat_map]. rewrite length_app, IH. cbn [byte_to_tags length]. lia.
Qed.

Lemma flat_map_format_08b_length raw :
  length (flat_map format_08b raw) = (8 * length raw)%nat.
Proof.
  induction raw as [|b rest IH]; [reflexivity|].
  cbn [flat_map]. rewrite length_app, IH. cbn [format_08b map length]. lia.
Qed.

(** X1: a successful encoding adds to the carrier two characters per UTF-8
    byte of the payload and one terminator in TAG mode, eight per byte and
    one separator in BINARY mode; the payload has between one and four bytes
    per character. *)
Theorem stego_size carrier payload stego :
  (hide_text_in_emoji_tags carrier payload = Some stego ->
   exists raw,
     Codec.utf8_encode payload = Some raw
     /\ length stego = (length carrier + 2 * length raw + 1)%nat
     /\ (length payload <= length raw <= 4 * length payload)%nat)
  /\ (encode_text_in_emoji_binary carrier payload = Some stego ->
      exists raw,
        Codec.utf8_encode payload = Some raw
        /\ length stego = (length carrier + 8 * length raw + 1)%nat
        /\ (length payload <= length raw <= 4 * length payload)%nat).
Proof.
  unfold hide_text_in_emoji_tags, text_to_tags,
    encode_text_in_emoji_binary, text_to_binary.
  destruct (Codec.utf8_encode payload) as [raw|] eqn:Henc;
    [| split; discriminate].
  pose proof (utf8_encode_length _ _ Henc) as Hlen.
  split; intros [= <-]; exists raw; (split; [reflexivity|]); (split; [|exact Hlen]).
  - rewrite !length_app, flat_map_byte_to_tags_length. cbn [length]. lia.
  - rewrite !length_app, length_map, flat_map_format_08b_length. cbn [length]. lia.
Qed.

Lemma stego_size_witness :
  exists raw,
    Codec.utf8_encode [0xE9; 0x1F512] = Some raw
    /\ length [0x1F512; 0xE000C; 0xE0003; 0xE000A; 0xE0009; 0xE000F; 0xE0000;
               0xE0009; 0xE000F; 0xE0009; 0xE0004; 0xE0009; 0xE0002; 0xE007F]
       = (length [0x1F512]%Z + 2 * length raw + 1)%nat
    /\ (length [0xE9; 0x1F512]%Z <= length raw
        <= 4 * length [0xE9; 0x1F512]%Z)%nat.
Proof.
  apply (proj1 (stego_size [0x1F512] [0xE9; 0x1F512]
                  [0x1F512; 0xE000C; 0xE0003; 0xE000A; 0xE0009; 0xE000F; 0xE0000;
                   0xE0009; 0xE000F; 0xE0009; 0xE0004; 0xE0009; 0xE0002;
                   0xE007F])).
  vm_compute. reflexivity.
Defined.

(** ** [tags_to_text], the decoder without the emptiness guard *)

(** X2: [tags_to_text] gives back every payload of Unicode scalar values
    from its tag text, the empty payload included, also when the tag text
    follows a carrier free of tag characters and is followed by the
    terminator and anything else; on such a string
    [reveal_text_from_emoji_tags] returns the same, except for the empty
    payload, where it returns [None]. *)
Theorem tags_to_text_round_trip carrier payload tail :
  Codec.well_formed payload = true -> tag_free carrier = true ->
  exists tag_text,
    text_to_tags payload = Some tag_text
    /\ tags_to_text tag_text = Some payload
    /\ tags_to_text (carrier ++ tag_text ++ TAG_END :: tail) = Some payload
    /\ reveal_text_from_emoji_tags (carrier ++ tag_text ++ TAG_END :: tail)
       = match payload with [] => None | _ => Some payload end.
Proof.
  intros Hwf Hfree.
  destruct (CodecFacts.utf8_encode_total payload Hwf) as [raw Henc].
  pose proof (CodecFacts.utf8_encode_range _ _ Henc) as Hraw.
  pose proof (CodecFacts.utf8_round_trip _ _ Henc) as Hround.
  unfold text_to_tags. rewrite Henc. eexists. split; [reflexivity|].
  assert (Hscan : forall rest,
             scan_nibbles (carrier ++ flat_map byte_to_tags raw ++ TAG_END :: rest)
             = flat_map nibbles_of raw)
    by (intros rest; rewrite scan_nibbles_skip by exact Hfree;
        apply scan_nibbles_tags).
  split; [| split].
  - unfold tags_to_text.
    rewrite <- (scan_nibbles_stop (flat_map byte_to_tags raw) []).
    rewrite scan_nibbles_tags, pair_nibbles_of by exact Hraw.
    exact Hround.
  - unfold tags_to_text. rewrite Hscan, pair_nibbles_of by exact Hraw.
    exact Hround.
  - rewrite (reveal_of_nibbles _ raw) by (try apply Hscan; exact Hraw).
    destruct payload as [|c rest].
    + cbn in Henc. injection Henc as <-. reflexivity.
    + pose proof (CodecFacts.utf8_encode_nonempty _ _ Henc) as Hne.
      destruct raw; [exfalso; apply Hne; congruence | exact Hround].
Qed.

Lemma tags_to_text_round_trip_witness :
  exists tag_text,
    text_to_tags [] = Some tag_text
    /\ tags_to_text tag_text = Some []
    /\ tags_to_text ([0x1F512] ++ tag_text ++ TAG_END :: [0x41]) = Some []
    /\ reveal_text_from_emoji_tags ([0x1F512] ++ tag_text ++ TAG_END :: [0x41])
       = None.
Proof. exact (tags_to_text_round_trip [0x1F512] [] [0x41] eq_refl eq_refl). Defined.

(** ** The carrier stays as it is *)

Lemma tag_text_in_alphabet raw :
  forallb in_tag_alphabet (flat_map byte_to_tags raw ++ [TAG_END]) = true.
Proof.
  rewrite forallb_app. apply andb_true_iff. split; [|reflexivity].
  induction raw as [|b rest IH]; [reflexivity|].
  cbn [flat_map]. rewrite forallb_app, IH, andb_true_r.
  unfold byte_to_tags, in_tag_alphabet. cbv zeta. cbn [forallb].
  rewrite !tag_digit_of_nibble by apply nibble_range. reflexivity.
Qed.

Lemma hidden_chars_in_alphabet binary :
  forallb in_zw_alphabet
    (map (fun bit => ZERO_WIDTH_CHARS (bit_key bit)) binary
     ++ [ZERO_WIDTH_CHARS key_sep]) = true.
Proof.
  rewrite forallb_app. apply andb_true_iff. split; [|reflexivity].
  induction binary as [|bit rest IH]; [reflexivity|].
  cbn [map forallb]. rewrite IH. destruct bit; reflexivity.
Qed.

Section Visible.
Variable inside : Z -> bool.

Lemma filter_outside_all s :
  forallb inside s = true -> filter (fun c => negb (inside c)) s = [].
Proof.
  induction s as [|c rest IH]; cbn [forallb filter]; [reflexivity|].
  intros [-> Hrest]%andb_true_iff. cbn [negb]. auto.
Qed.

Lemma filter_outside_none s :
  forallb (fun c => negb (inside c)) s = true ->
  filter (fun c => negb (inside c)) s = s.
Proof.
  induction s as [|c rest IH]; cbn [forallb filter]; [reflexivity|].
  intros [-> Hrest]%andb_true_iff. now rewrite IH.
Qed.
End Visible.

(** X3: an encoder returns the carrier, unchanged, followed only by
    characters of its own alphabet; when the carrier holds no character of
    that alphabet, the characters of the result outside the alphabet are the
    carrier. *)
Theorem carrier_kept carrier payload stego :
  (hide_text_in_emoji_tags carrier payload = Some stego ->
   (exists hidden,
      stego = carrier ++ hidden /\ forallb in_tag_alphabet hidden = true)
   /\ (tag_free carrier = true -> visible_tag stego = carrier))
  /\ (encode_text_in_emoji_binary carrier payload = Some stego ->
      (exists hidden,
         stego = carrier ++ hidden /\ forallb in_zw_alphabet hidden = true)
      /\ (zw_free carrier = true -> visible_zw stego = carrier)).
Proof.
  unfold hide_text_in_emoji_tags, text_to_tags,
    encode_text_in_emoji_binary, text_to_binary.
  destruct (Codec.utf8_encode payload) as [raw|]; [| split; discriminate].
  split; intros [= <-]; split.
  - eexists. split; [reflexivity | apply tag_text_in_alphabet].
  - intros Hfree. unfold visible_tag. rewrite filter_app.
    rewrite (filter_outside_all _ _ (tag_text_in_alphabet raw)), app_nil_r.
    now apply filter_outside_none.
  - eexists. split; [reflexivity | apply hidden_chars_in_alphabet].
  - intros Hfree. unfold visible_zw. rewrite filter_app.
    rewrite (filter_outside_all _ _ (hidden_chars_in_alphabet _)), app_nil_r.
    now apply filter_outside_none.
Qed.

Lemma carrier_kept_witness :
  (exists hidden,
     [0x1F512; 0xE0004; 0xE0008; 0xE007F] = [0x1F512] ++ hidden
     /\ forallb in_tag_alphabet hidden = true)
  /\ (tag_free [0x1F512] = true
      -> visible_tag [0x1F512; 0xE0004; 0xE0008; 0xE007F] = [0x1F512]).
Proof.
  exact (proj1 (carrier_kept [0x1F512] [72] [0x1F512; 0xE0004; 0xE0008; 0xE007F])
           eq_refl).
Defined.

(** ** No two payloads share an encoding *)

Lemma flat_map_nibbles_inj raw1 raw2 :
  Forall is_byte raw1 -> Forall is_byte raw2 ->
  flat_map byte_to_tags raw1 = flat_map byte_to_tags raw2 -> raw1 = raw2.
Proof.
  intros H1 H2 Heq.
  rewrite <- (pair_nibbles_of raw1 H1), <- (pair_nibbles_of raw2 H2).
  rewrite <- (scan_nibbles_tags raw1 []), <- (scan_nibbles_tags raw2 []).
  now rewrite Heq.
Qed.

Lemma flat_map_format_inj raw1 raw2 :
  Forall is_byte raw1 -> Forall is_byte raw2 ->
  flat_map format_08b raw1 = flat_map format_08b raw2 -> raw1 = raw2.
Proof.
  intros H1 H2 Heq.
  rewrite <- (group_bytes_format raw1 H1), <- (group_bytes_format raw2 H2).
  now rewrite Heq.
Qed.

Lemma utf8_encode_inj text1 text2 raw :
  Codec.utf8_encode text1 = Some raw -> Codec.utf8_encode text2 = Some raw ->
  text1 = text2.
Proof.
  intros H1%CodecFacts.utf8_round_trip H2%CodecFacts.utf8_round_trip. congruence.
Qed.

(** X4: on one carrier, two payloads that encode to the same string are the
    same payload, in TAG mode and in BINARY mode, whether or not the decoder
    can give them back. *)
Theorem encoders_injective carrier payload1 payload2 stego :
  (hide_text_in_emoji_tags carrier payload1 = Some stego ->
   hide_text_in_emoji_tags carrier payload2 = Some stego ->
   payload1 = payload2)
  /\ (encode_text_in_emoji_binary carrier payload1 = Some stego ->
      encode_text_in_emoji_binary carrier payload2 = Some stego ->
      payload1 = payload2).
Proof.
  unfold hide_text_in_emoji_tags, text_to_tags,
    encode_text_in_emoji_binary, text_to_binary.
  destruct (Codec.utf8_encode payload1) as [raw1|] eqn:E1;
    [| split; discriminate].
  destruct (Codec.utf8_encode payload2) as [raw2|] eqn:E2;
    [| split; discriminate].
  pose proof (CodecFacts.utf8_encode_range _ _ E1) as R1.
  pose proof (CodecFacts.utf8_encode_range _ _ E2) as R2.
  split; intros [= <-] [= Heq];
    apply app_inv_head, app_inv_tail in Heq.
  - symmetry in Heq. apply flat_map_nibbles_inj in Heq; try assumption.
    subst raw2. exact (utf8_encode_inj _ _ _ E1 E2).
  - assert (Hbits : flat_map format_08b raw2 = flat_map format_08b raw1).
    { rewrite <- (scan_bits_hidden (flat_map format_08b raw2) []).
      rewrite <- (scan_bits_hidden (flat_map format_08b raw1) []).
      now rewrite Heq. }
    apply flat_map_format_inj in Hbits; try assumption.
    subst raw2. exact (utf8_encode_inj _ _ _ E1 E2).
Qed.

Lemma encoders_injective_witness :
  hide_text_in_emoji_tags [0x1F512] [72]
  = Some [0x1F512; 0xE0004; 0xE0008; 0xE007F]
  /\ [72] = [72] :> str.
Proof.
  split; [vm_compute; reflexivity|].
  apply (proj1 (encoders_injective [0x1F512] [72] [72]
                  [0x1F512; 0xE0004; 0xE0008; 0xE007F]));
    vm_compute; reflexivity.
Defined.

(** ** After the terminator *)

Lemma scan_bits_stop pre post :
  scan_bits (pre ++ ZERO_WIDTH_CHARS key_sep :: post) = scan_bits pre.
Proof.
  induction pre as [|c rest IH]; cbn [app scan_bits].
  - reflexivity.
  - now rewrite IH.
Qed.

Lemma decode_binary_stop pre post :
  decode_text_from_emoji_binary (pre ++ ZERO_WIDTH_CHARS key_sep :: post)
  = decode_text_from_emoji_binary pre.
Proof. unfold decode_text_from_emoji_binary. now rewrite scan_bits_stop. Qed.

Lemma reveal_stop pre post :
  reveal_text_from_emoji_tags (pre ++ TAG_END :: post)
  = reveal_text_from_emoji_tags pre.
Proof. unfold reveal_text_from_emoji_tags. now rewrite scan_nibbles_stop. Qed.

Lemma reveal_cut a b tail :
  reveal_text_from_emoji_tags ((a ++ b ++ [TAG_END]) ++ tail)
  = reveal_text_from_emoji_tags (a ++ b ++ [TAG_END]).
Proof.
  rewrite <- !app_assoc. cbn [app]. rewrite !(app_assoc a b).
  now rewrite !reveal_stop.
Qed.

Lemma decode_binary_cut a b tail :
  decode_text_from_emoji_binary ((a ++ b ++ [ZERO_WIDTH_CHARS key_sep]) ++ tail)
  = decode_text_from_emoji_binary (a ++ b ++ [ZERO_WIDTH_CHARS key_sep]).
Proof.
  rewrite <- !app_assoc. cbn [app]. rewrite !(app_assoc a b).
  now rewrite !decode_binary_stop.
Qed.

Lemma reveal_hidden_append carrier payload stego tail :
  hide_text_in_emoji_tags carrier payload = Some stego ->
  reveal_text_from_emoji_tags (stego ++ tail) = reveal_text_from_emoji_tags stego.
Proof.
  unfold hide_text_in_emoji_tags.
  destruct (text_to_tags payload) as [tag_text|]; [|discriminate].
  intros [= <-]. apply reveal_cut.
Qed.

Lemma decode_encoded_append carrier payload stego tail :
  encode_text_in_emoji_binary carrier payload = Some stego ->
  decode_text_from_emoji_binary (stego ++ tail)
  = decode_text_from_emoji_binary stego.
Proof.
  unfold encode_text_in_emoji_binary.
  destruct (text_to_binary payload) as [binary|]; [|discriminate].
  cbv zeta. intros [= <-]. apply decode_binary_cut.
Qed.

(** X5: whatever follows an encoder's result is invisible to the decoder of
    the same mode, for every carrier.  In particular, hiding a second payload
    in a string that already hides one leaves the first as the one that is
    decoded: the second cannot be recovered in that mode. *)
Theorem first_message_wins carrier payload stego :
  (hide_text_in_emoji_tags carrier payload = Some stego ->
   (forall tail,
      reveal_text_from_emoji_tags (stego ++ tail)
      = reveal_text_from_emoji_tags stego)
   /\ (forall second stego2,
         hide_text_in_emoji_tags stego second = Some stego2 ->
         reveal_text_from_emoji_tags stego2 = reveal_text_from_emoji_tags stego))
  /\ (encode_text_in_emoji_binary carrier payload = Some stego ->
      (forall tail,
         decode_text_from_emoji_binary (stego ++ tail)
         = decode_text_from_emoji_binary stego)
      /\ (forall second stego2,
            encode_text_in_emoji_binary stego second = Some stego2 ->
            decode_text_from_emoji_binary stego2
            = decode_text_from_emoji_binary stego)).
Proof.
  split; intros Henc; split.
  - intros tail. exact (reveal_hidden_append _ _ _ tail Henc).
  - intros second stego2. unfold hide_text_in_emoji_tags at 1.
    destruct (text_to_tags second) as [tag_text|]; [|discriminate].
    intros [= <-]. exact (reveal_hidden_append _ _ _ _ Henc).
  - intros tail. exact (decode_encoded_append _ _ _ tail Henc).
  - intros second stego2. unfold encode_text_in_emoji_binary at 1.
    destruct (text_to_binary second) as [binary|]; [|discriminate].
    intros [= <-]. exact (decode_encoded_append _ _ _ _ Henc).
Qed.

Lemma first_message_wins_witness :
  reveal_text_from_emoji_tags
    [0x1F512; 0xE0004; 0xE0008; 0xE007F; 0xE0006; 0xE0009; 0xE007F]
  = reveal_text_from_emoji_tags [0x1F512; 0xE0004; 0xE0008; 0xE007F].
Proof.
  refine (proj2 (proj1 (first_message_wins [0x1F512] [72]
                          [0x1F512; 0xE0004; 0xE0008; 0xE007F]) eq_refl)
            [105] _ eq_refl).
Defined.

(** ** One message in each mode *)

Lemma zw_chars_tag_free binary :
  tag_free (map (fun bit => ZERO_WIDTH_CHARS (bit_key bit)) binary
            ++ [ZERO_WIDTH_CHARS key_sep]) = true.
Proof.
  unfold tag_free. rewrite forallb_app. apply andb_true_iff. split; [|reflexivity].
  induction binary as [|bit rest IH]; [reflexivity|].
  cbn [map forallb]. rewrite IH. destruct bit; reflexivity.
Qed.

Section Outside.
Variable inside : Z -> bool.

Lemma filter_inside_none s :
  forallb (fun c => negb (inside c)) s = true -> filter inside s = [].
Proof.
  induction s as [|c rest IH]; cbn [forallb filter]; [reflexivity|].
  intros [Hc Hrest]%andb_true_iff. apply negb_true_iff in Hc. rewrite Hc. auto.
Qed.
End Outside.

Lemma reveal_app_free s extra :
  tag_free extra = true ->
  reveal_text_from_emoji_tags (s ++ extra) = reveal_text_from_emoji_tags s.
Proof.
  intros H. apply reveal_by_view. unfold tag_view.
  now rewrite filter_app, (filter_inside_none _ _ H), app_nil_r.
Qed.

Lemma decode_binary_app_free s extra :
  zw_free extra = true ->
  decode_text_from_emoji_binary (s ++ extra) = decode_text_from_emoji_binary s.
Proof.
  intros H. apply decode_binary_by_view. unfold zw_view.
  now rewrite filter_app, (filter_inside_none _ _ H), app_nil_r.
Qed.

Lemma binary_round_trip_on carrier payload raw :
  zw_free carrier = true -> Codec.utf8_encode payload = Some raw ->
  payload <> [] ->
  plausible payload = true \/ forallb is_ascii payload = true ->
  exists stego,
    encode_text_in_emoji_binary carrier payload = Some stego
    /\ decode_text_from_emoji_binary stego = Some payload.
Proof.
  intros Hfree Henc Hne Hok.
  destruct (decode_encoded_binary carrier payload raw Hfree Henc)
    as [stego [Hstego Hdec]].
  exists stego. split; [exact Hstego|]. rewrite Hdec.
  destruct payload as [|c rest]; [exfalso; apply Hne; reflexivity|].
  destruct (plausible (c :: rest)) eqn:Hp; [reflexivity|].
  destruct Hok as [Hok | Hascii]; [discriminate|].
  rewrite (CodecFacts.utf8_encode_ascii _ Hascii) in Henc.
  symmetry. exact Henc.
Qed.

(** X6: the two modes can share a string.  On a carrier free of both
    alphabets, a payload encoded in BINARY mode and a payload hidden in TAG
    mode, one on top of the other in either order, are both given back, each
    by the decoder of its mode (both payloads non-empty and of Unicode scalar
    values, the BINARY one passing the control character filter or pure
    ASCII). *)
Theorem two_modes_one_string carrier for_binary for_tag :
  tag_free carrier = true -> zw_free carrier = true ->
  Codec.well_formed for_binary = true -> for_binary <> [] ->
  plausible for_binary = true \/ forallb is_ascii for_binary = true ->
  Codec.well_formed for_tag = true -> for_tag <> [] ->
  (exists stego1 stego2,
     encode_text_in_emoji_binary carrier for_binary = Some stego1
     /\ hide_text_in_emoji_tags stego1 for_tag = Some stego2
     /\ reveal_text_from_emoji_tags stego2 = Some for_tag
     /\ decode_text_from_emoji_binary stego2 = Some for_binary)
  /\ (exists stego1 stego2,
        hide_text_in_emoji_tags carrier for_tag = Some stego1
        /\ encode_text_in_emoji_binary stego1 for_binary = Some stego2
        /\ reveal_text_from_emoji_tags stego2 = Some for_tag
        /\ decode_text_from_emoji_binary stego2 = Some for_binary).
Proof.
  intros Htag Hzw HwfB HneB Hok HwfT HneT.
  destruct (CodecFacts.utf8_encode_total for_binary HwfB) as [rawB HencB].
  destruct (CodecFacts.utf8_encode_total for_tag HwfT) as [rawT HencT].
  assert (HT : match for_tag with [] => None | _ => Some for_tag end
               = Some for_tag)
    by (destruct for_tag; [exfalso; apply HneT|]; reflexivity).
  split.
  - destruct (binary_round_trip_on carrier for_binary rawB Hzw HencB HneB Hok)
      as [stego1 [H1 Hdec1]].
    assert (Hfree1 : tag_free stego1 = true).
    { unfold encode_text_in_emoji_binary in H1.
      destruct (text_to_binary for_binary) as [binary|]; [|discriminate].
      injection H1 as <-. unfold tag_free. rewrite forallb_app.
      apply andb_true_iff. split; [exact Htag | apply zw_chars_tag_free]. }
    destruct (reveal_hidden stego1 for_tag rawT Hfree1 HencT) as [Hhide Hrev].
    exists stego1. eexists. split; [exact H1|]. split; [exact Hhide|]. split.
    + now rewrite Hrev.
    + rewrite <- Hdec1. apply decode_binary_app_free, tag_text_zw_free.
  - destruct (reveal_hidden carrier for_tag rawT Htag HencT) as [H1 Hrev1].
    rewrite HT in Hrev1.
    assert (Hfree1 : zw_free (carrier ++ flat_map byte_to_tags rawT ++ [TAG_END])
                     = true).
    { unfold zw_free. rewrite forallb_app.
      apply andb_true_iff. split; [exact Hzw | apply tag_text_zw_free]. }
    destruct (binary_round_trip_on _ for_binary rawB Hfree1 HencB HneB Hok)
      as [stego2 [H2 Hdec2]].
    eexists. exists stego2. split; [exact H1|]. split; [exact H2|].
    split; [|exact Hdec2].
    unfold encode_text_in_emoji_binary in H2.
    destruct (text_to_binary for_binary) as [binary|]; [|discriminate].
    cbv zeta in H2. injection H2 as <-.
    rewrite <- Hrev1. apply reveal_app_free, zw_chars_tag_free.
Qed.

Lemma two_modes_one_string_witness :
  (exists stego1 stego2,
     encode_text_in_emoji_binary [0x1F512] [72] = Some stego1
     /\ hide_text_in_emoji_tags stego1 [105] = Some stego2
     /\ reveal_text_from_emoji_tags stego2 = Some [105]
     /\ decode_text_from_emoji_binary stego2 = Some [72])
  /\ (exists stego1 stego2,
        hide_text_in_emoji_tags [0x1F512] [105] = Some stego1
        /\ encode_text_in_emoji_binary stego1 [72] = Some stego2
        /\ reveal_text_from_emoji_tags stego2 = Some [105]
        /\ decode_text_from_emoji_binary stego2 = Some [72]).
Proof.
  assert (HneB : [72] <> @nil Z) by discriminate.
  assert (HneT : [105] <> @nil Z) by discriminate.
  exact (two_modes_one_string [0x1F512] [72] [105]
           eq_refl eq_refl eq_refl HneB (or_introl eq_refl) eq_refl HneT).
Defined.

(** ** The REVEAL tab in its three modes *)

(** The dispatcher in terms of the two decoders applied to its input. *)
Lemma decode_message_report mode s :
  decode_message mode s
  = match strip s with
    | [] => InputRequired
    | _ => report mode (reveal_text_from_emoji_tags s)
                  (decode_text_from_emoji_binary s)
    end.
Proof.
  unfold decode_message.
  rewrite <- (reveal_strip s), <- (decode_binary_strip s).
  destruct (strip s) as [|c0 rest0]; [reflexivity|].
  destruct mode; cbn [report];
    destruct (reveal_text_from_emoji_tags (c0 :: rest0)) as [[|c text]|];
    cbn [truthy]; try reflexivity;
    destruct (decode_text_from_emoji_binary (c0 :: rest0)) as [[|c' text']|];
    reflexivity.
Qed.

Ltac report_cases tag_text binary_text :=
  destruct tag_text as [[|? ?]|]; destruct binary_text as [[|? ?]|];
  cbn [report].

Lemma report_sound mode tag_text binary_text text mode_found :
  report mode tag_text binary_text = MessageFound text mode_found ->
  text <> [] /\ mode_found <> Unset
  /\ (mode_found = TAG -> tag_text = Some text)
  /\ (mode_found = BINARY -> binary_text = Some text)
  /\ (mode = TagOnly -> mode_found = TAG)
  /\ (mode = BinaryOnly -> mode_found = BINARY).
Proof.
  destruct mode; report_cases tag_text binary_text; intros H;
    try discriminate; injection H as <- <-;
    repeat split; intros; try discriminate; reflexivity.
Qed.

Lemma report_auto_tag tag_text binary_text text :
  report AutoDetect tag_text binary_text = MessageFound text TAG
  <-> report TagOnly tag_text binary_text = MessageFound text TAG.
Proof.
  report_cases tag_text binary_text; split; intros H;
    try discriminate; exact H.
Qed.

Lemma report_auto_binary tag_text binary_text text :
  report AutoDetect tag_text binary_text = MessageFound text BINARY ->
  report BinaryOnly tag_text binary_text = MessageFound text BINARY
  /\ report TagOnly tag_text binary_text = NoMessage.
Proof.
  report_cases tag_text binary_text; intros H; try discriminate;
    split; try reflexivity; exact H.
Qed.

Lemma report_tag_nothing tag_text binary_text :
  report TagOnly tag_text binary_text = NoMessage ->
  report AutoDetect tag_text binary_text = report BinaryOnly tag_text binary_text.
Proof.
  report_cases tag_text binary_text; intros H; try discriminate; reflexivity.
Qed.

(** X7: what the REVEAL tab reports is never an empty message and never
    without a mode name; a message reported with mode TAG (BINARY) is what
    the TAG (BINARY) decoder returns on the input, and the TAG-only
    (BINARY-only) mode reports no other mode.  Auto mode reports a TAG
    message exactly when TAG-only mode reports it; when auto mode reports a
    BINARY message, BINARY-only mode reports the same and TAG-only mode
    reports none; when TAG-only mode reports no message, auto mode reports
    what BINARY-only mode reports. *)
Theorem decode_message_modes s :
  (forall mode text mode_found,
     decode_message mode s = MessageFound text mode_found ->
     text <> [] /\ mode_found <> Unset
     /\ (mode_found = TAG -> reveal_text_from_emoji_tags s = Some text)
     /\ (mode_found = BINARY -> decode_text_from_emoji_binary s = Some text)
     /\ (mode = TagOnly -> mode_found = TAG)
     /\ (mode = BinaryOnly -> mode_found = BINARY))
  /\ (forall text,
        decode_message AutoDetect s = MessageFound text TAG
        <-> decode_message TagOnly s = MessageFound text TAG)
  /\ (forall text,
        decode_message AutoDetect s = MessageFound text BINARY ->
        decode_message BinaryOnly s = MessageFound text BINARY
        /\ decode_message TagOnly s = NoMessage)
  /\ (decode_message TagOnly s = NoMessage ->
      decode_message AutoDetect s = decode_message BinaryOnly s).
Proof.
  split; [| split; [| split]].
  - intros mode text mode_found. rewrite decode_message_report.
    destruct (strip s); [discriminate | apply report_sound].
  - intros text. rewrite !decode_message_report.
    destruct (strip s); [split; discriminate | apply report_auto_tag].
  - intros text. rewrite !decode_message_report.
    destruct (strip s); [discriminate | apply report_auto_binary].
  - rewrite !decode_message_report.
    destruct (strip s); [discriminate | apply report_tag_nothing].
Qed.

Lemma decode_message_modes_witness :
  decode_message BinaryOnly
    [0xE0004; 0x200B; 0x200C; 0x200B; 0x200B; 0x200B; 0x200B; 0x200B; 0x200C;
     0x200D] = MessageFound [65] BINARY
  /\ decode_message TagOnly
       [0xE0004; 0x200B; 0x200C; 0x200B; 0x200B; 0x200B; 0x200B; 0x200B; 0x200C;
        0x200D] = NoMessage.
Proof.
  apply (proj1 (proj2 (proj2 (decode_message_modes
           [0xE0004; 0x200B; 0x200C; 0x200B; 0x200B; 0x200B; 0x200B; 0x200B;
            0x200C; 0x200D])))).
  vm_compute. reflexivity.
Defined.

(** X8: a text that holds no tag digit and none of U+200B, U+200C, U+200D,
    an ordinary emoji or a flag sequence for instance, is never reported as
    holding a message, in any of the three modes. *)
Theorem plain_text_no_message mode s :
  digit_free s = true -> zw_free s = true ->
  decode_message mode s = NoMessage \/ decode_message mode s = InputRequired.
Proof.
  intros Hd Hz. rewrite decode_message_report.
  destruct (strip s); [right; reflexivity|]. left.
  unfold reveal_text_from_emoji_tags, decode_text_from_emoji_binary.
  rewrite (scan_nibbles_no_digit s Hd), (scan_bits_no_zw s Hz).
  destruct mode; reflexivity.
Qed.

Lemma plain_text_no_message_witness :
  decode_message AutoDetect
    [0x1F3F4; 0xE0067; 0xE0062; 0xE0065; 0xE006E; 0xE0067; 0xE007F] = NoMessage
  \/ decode_message AutoDetect
       [0x1F3F4; 0xE0067; 0xE0062; 0xE0065; 0xE006E; 0xE0067; 0xE007F]
     = InputRequired.
Proof.
  exact (plain_text_no_message AutoDetect
           [0x1F3F4; 0xE0067; 0xE0062; 0xE0065; 0xE006E; 0xE0067; 0xE007F]
           eq_refl eq_refl).
Defined.

(** ** [strip] *)

Lemma lstrip_space_prefix ws s :
  forallb py_isspace ws = true -> lstrip (ws ++ s) = lstrip s.
Proof.
  induction ws as [|c rest IH]; cbn [forallb app lstrip]; [reflexivity|].
  intros [-> Hrest]%andb_true_iff. auto.
Qed.

Lemma lstrip_all_space ws : forallb py_isspace ws = true -> lstrip ws = [].
Proof.
  intros H. rewrite <- (app_nil_r ws). now rewrite lstrip_space_prefix.
Qed.

Lemma lstrip_app s t :
  lstrip (s ++ t) = match lstrip s with [] => lstrip t | kept => kept ++ t end.
Proof.
  induction s as [|c rest IH]; cbn [app lstrip]; [destruct (lstrip t); reflexivity|].
  destruct (py_isspace c); [exact IH | reflexivity].
Qed.

Lemma lstrip_head s c rest : lstrip s = c :: rest -> py_isspace c = false.
Proof.
  induction s as [|d more IH]; cbn [lstrip]; [discriminate|].
  destruct (py_isspace d) eqn:Hd; [exact IH|]. intros [= <- _]. exact Hd.
Qed.

Lemma lstrip_fixed c rest : py_isspace c = false -> lstrip (c :: rest) = c :: rest.
Proof. intros H. cbn [lstrip]. now rewrite H. Qed.

Lemma forallb_rev (f : Z -> bool) l : forallb f (rev l) = forallb f l.
Proof.
  induction l as [|c rest IH]; [reflexivity|].
  cbn [rev forallb]. rewrite forallb_app, IH. cbn [forallb].
  rewrite andb_true_r. apply andb_comm.
Qed.

(** White space around a text does not survive [strip]. *)
Lemma strip_padding before s after :
  forallb py_isspace before = true -> forallb py_isspace after = true ->
  strip (before ++ s ++ after) = strip s.
Proof.
  intros Hb Ha. unfold strip. rewrite lstrip_space_prefix by exact Hb.
  rewrite lstrip_app, (lstrip_all_space after Ha).
  destruct (lstrip s) as [|c kept]; [reflexivity|].
  rewrite rev_app_distr, lstrip_space_prefix; [reflexivity|].
  now rewrite forallb_rev.
Qed.

(** A text that neither starts nor ends with white space is its own
    [strip]. *)
Lemma strip_fixed c body z :
  py_isspace c = false -> py_isspace z = false ->
  strip (c :: body ++ [z]) = c :: body ++ [z].
Proof.
  intros Hc Hz. unfold strip. rewrite (lstrip_fixed c _ Hc).
  change (c :: body ++ [z]) with ((c :: body) ++ [z]).
  rewrite rev_app_distr. cbn [rev app]. rewrite (lstrip_fixed z _ Hz).
  change (z :: rev body ++ [c]) with ([z] ++ rev (c :: body)).
  rewrite rev_app_distr, rev_involutive. reflexivity.
Qed.

Lemma strip_head s c rest : strip s = c :: rest -> py_isspace c = false.
Proof.
  unfold strip. intros H.
  destruct (lstrip s) as [|d kept] eqn:Hl; [discriminate H|].
  pose proof (lstrip_head s d kept Hl) as Hd.
  assert (Hrev : rev (d :: kept) = rev kept ++ [d]) by reflexivity.
  rewrite Hrev, lstrip_app in H.
  destruct (lstrip (rev kept)) as [|e more] eqn:Hk.
  - rewrite (lstrip_fixed d [] Hd) in H. cbn in H. now injection H as <- _.
  - rewrite rev_app_distr in H. cbn [rev app] in H. now injection H as <- _.
Qed.

(** X9: white space before and after the pasted text makes no difference to
    what the REVEAL tab reports, in any mode. *)
Theorem reveal_tab_ignores_padding mode before s after :
  forallb py_isspace before = true -> forallb py_isspace after = true ->
  decode_message mode (before ++ s ++ after) = decode_message mode s.
Proof.
  intros Hb Ha. unfold decode_message.
  now rewrite (strip_padding before s after Hb Ha).
Qed.

Lemma reveal_tab_ignores_padding_witness :
  decode_message AutoDetect
    ([32; 10] ++ [0x1F512; 0xE0004; 0xE0008; 0xE007F] ++ [10])
  = decode_message AutoDetect [0x1F512; 0xE0004; 0xE0008; 0xE007F].
Proof.
  exact (reveal_tab_ignores_padding AutoDetect [32; 10]
           [0x1F512; 0xE0004; 0xE0008; 0xE007F] [10] eq_refl eq_refl).
Defined.

(** ** The HIDE tab *)

Lemma utf8_encode_some_wf text raw :
  Codec.utf8_encode text = Some raw -> Codec.well_formed text = true.
Proof.
  intros H. destruct (Codec.well_formed text) eqn:W; [reflexivity|].
  exfalso. revert raw H W.
  induction text as [|c rest IH]; cbn [Codec.utf8_encode Codec.well_formed forallb];
    [discriminate|].
  intros raw. unfold Codec.encode_code_point at 1.
  destruct (Codec.is_scalar c); cbn [negb andb]; [|discriminate].
  destruct (Codec.utf8_encode rest) as [more|] eqn:E.
  - intros _ W. exact (IH more eq_refl W).
  - repeat match goal with |- context [if ?b then _ else _] => destruct b end;
      discriminate.
Qed.

(** The result of an encoder on a stripped, non-empty emoji is its own
    [strip], so [copy_result] puts all of it on the clipboard. *)
Lemma copy_keeps_stego emoji_input hidden terminator :
  strip emoji_input <> [] -> py_isspace terminator = false ->
  encode_copy_result (strip emoji_input ++ hidden ++ [terminator])
  = Some (strip emoji_input ++ hidden ++ [terminator]).
Proof.
  intros Hne Hterm. unfold encode_copy_result.
  destruct (strip emoji_input) as [|c rest] eqn:Hs; [exfalso; apply Hne; reflexivity|].
  pose proof (strip_head _ _ _ Hs) as Hc.
  replace ((c :: rest) ++ hidden ++ [terminator])
    with (c :: (rest ++ hidden) ++ [terminator])
    by (cbn [app]; now rewrite <- app_assoc).
  now rewrite (strip_fixed c (rest ++ hidden) terminator Hc Hterm).
Qed.

(** What a shown result of the HIDE tab was computed from. *)
Lemma encode_message_outcomes_aux tag_down emoji_input hidden_input
      stego mode_name increase :
  encode_message tag_down emoji_input hidden_input
  = Hidden stego mode_name increase ->
  strip hidden_input <> []
  /\ (if tag_down
      then hide_text_in_emoji_tags (strip emoji_input) (strip hidden_input)
      else encode_text_in_emoji_binary (strip emoji_input) (strip hidden_input))
     = Some stego
  /\ exists raw,
       Codec.utf8_encode (strip hidden_input) = Some raw
       /\ encode_copy_result stego = Some stego.
Proof.
  unfold encode_message.
  destruct (strip emoji_input) as [|e0 erest] eqn:He; [discriminate|].
  destruct (strip hidden_input) as [|h0 hrest] eqn:Hh; [discriminate|].
  assert (Hne : strip emoji_input <> []) by (rewrite He; discriminate).
  unfold hide_text_in_emoji_tags, text_to_tags,
    encode_text_in_emoji_binary, text_to_binary.
  destruct (Codec.utf8_encode (h0 :: hrest)) as [raw|] eqn:Henc;
    [| destruct tag_down; discriminate].
  rewrite <- He in *.
  destruct tag_down; intros [= <- <- <-];
    (split; [discriminate|]); (split; [reflexivity|]);
    exists raw; (split; [reflexivity|]); now apply copy_keeps_stego.
Qed.

(** X10: the HIDE tab asks for an emoji exactly when the emoji field is empty
    or white space, asks for a text exactly when the emoji is there and the
    text field is empty or white space, and fails with the error popup
    exactly when both are there and the stripped text is not made of Unicode
    scalar values.  Otherwise it shows the encoding of the stripped text on
    the stripped emoji, in the mode of the toggle button, with a size
    increase of two (TAG) or eight (BINARY) characters per UTF-8 byte plus
    one, and COPY EMOJI puts exactly that string on the clipboard. *)
Theorem encode_message_outcomes tag_down emoji_input hidden_input :
  (encode_message tag_down emoji_input hidden_input = EmojiRequired
   <-> strip emoji_input = [])
  /\ (encode_message tag_down emoji_input hidden_input = TextRequired
      <-> strip emoji_input <> [] /\ strip hidden_input = [])
  /\ (encode_message tag_down emoji_input hidden_input = EncodeError
      <-> strip emoji_input <> [] /\ strip hidden_input <> []
          /\ Codec.well_formed (strip hidden_input) = false)
  /\ (forall stego mode_name char_increase,
        encode_message tag_down emoji_input hidden_input
        = Hidden stego mode_name char_increase ->
        mode_name = (if tag_down then TAG else BINARY)
        /\ (if tag_down
            then hide_text_in_emoji_tags (strip emoji_input) (strip hidden_input)
            else encode_text_in_emoji_binary (strip emoji_input)
                                             (strip hidden_input))
           = Some stego
        /\ (exists raw,
              Codec.utf8_encode (strip hidden_input) = Some raw
              /\ char_increase
                 = (if tag_down then 2 else 8) * Z.of_nat (length raw) + 1)
        /\ encode_copy_result stego = Some stego).
Proof.
  unfold encode_message.
  destruct (strip emoji_input) as [|e0 erest] eqn:He.
  { split; [split; reflexivity|].
    split; [split; [discriminate | intros [H _]; now contradiction H]|].
    split; [split; [discriminate | intros [H _]; now contradiction H]|].
    discriminate. }
  destruct (strip hidden_input) as [|h0 hrest] eqn:Hh.
  { split; [split; discriminate|].
    split; [split; [intros _; split; [discriminate | reflexivity] | reflexivity]|].
    split; [split; [discriminate | intros [_ [H _]]; now contradiction H]|].
    discriminate. }
  assert (Hne : strip emoji_input <> []) by (rewrite He; discriminate).
  unfold hide_text_in_emoji_tags, text_to_tags,
    encode_text_in_emoji_binary, text_to_binary.
  destruct (Codec.utf8_encode (h0 :: hrest)) as [raw|] eqn:Henc.
  - pose proof (utf8_encode_some_wf _ _ Henc) as Hwf. rewrite Hwf.
    split; [split; [destruct tag_down|]; discriminate|].
    split; [split; [destruct tag_down; discriminate | intros [_ H]; discriminate]|].
    split; [split; [destruct tag_down; discriminate | intros [_ [_ H]]; discriminate]|].
    intros stego mode_name char_increase. rewrite <- He in *.
    destruct tag_down; intros [= <- <- <-];
      (split; [reflexivity|]); (split; [reflexivity|]); split.
    + exists raw. split; [reflexivity|].
      rewrite !length_app, flat_map_byte_to_tags_length. cbn [length]. lia.
    + now apply copy_keeps_stego.
    + exists raw. split; [reflexivity|].
      rewrite !length_app, length_map, flat_map_format_08b_length.
      cbn [length]. lia.
    + now apply copy_keeps_stego.
  - pose proof (CodecFacts.utf8_encode_fails _ Henc) as Hwf. rewrite Hwf.
    split; [split; [destruct tag_down|]; discriminate|].
    split; [split; [destruct tag_down; discriminate | intros [_ H]; discriminate]|].
    split; [split; [intros _; repeat split; discriminate | destruct tag_down; reflexivity]|].
    intros stego mode_name char_increase. destruct tag_down; discriminate.
Qed.

Lemma encode_message_outcomes_witness :
  encode_message true [32; 0x1F512] [0xD800] = EncodeError
  /\ encode_copy_result [0x1F512; 0xE0004; 0xE0008; 0xE007F]
     = Some [0x1F512; 0xE0004; 0xE0008; 0xE007F].
Proof.
  split.
  - apply (proj2 (proj1 (proj2 (proj2
             (encode_message_outcomes true [32; 0x1F512] [0xD800]))))).
    vm_compute. repeat split; discriminate.
  - apply (proj2 (proj2 (proj2
             (proj2 (proj2 (proj2
                (encode_message_outcomes true [32; 0x1F512] [72; 32])))
              [0x1F512; 0xE0004; 0xE0008; 0xE007F] TAG 3 eq_refl)))).
Defined.

(** ** From the HIDE tab to the REVEAL tab *)

Lemma report_tag_found mode text binary_text :
  text <> [] -> mode <> BinaryOnly ->
  report mode (Some text) binary_text = MessageFound text TAG.
Proof.
  intros Hne Hmode. destruct text; [exfalso; apply Hne; reflexivity|].
  destruct mode; [reflexivity | reflexivity | exfalso; apply Hmode; reflexivity].
Qed.

Lemma report_binary_found mode text :
  text <> [] -> mode <> TagOnly ->
  report mode None (Some text) = MessageFound text BINARY.
Proof.
  intros Hne Hmode. destruct text; [exfalso; apply Hne; reflexivity|].
  destruct mode; [reflexivity | exfalso; apply Hmode; reflexivity | reflexivity].
Qed.

Lemma decode_message_found mode s text mode_found :
  report mode (reveal_text_from_emoji_tags s) (decode_text_from_emoji_binary s)
  = MessageFound text mode_found ->
  decode_message mode s = MessageFound text mode_found.
Proof.
  intros H. rewrite decode_message_report.
  destruct (strip s) eqn:Hs; [|exact H].
  destruct (strip_empty_nothing s Hs) as [Ht Hb]. rewrite Ht, Hb in H.
  destruct mode; discriminate.
Qed.

(** X11: HIDE MESSAGE, COPY EMOJI, paste, REVEAL.  When the HIDE tab shows a
    result, the string COPY EMOJI puts on the clipboard, pasted into the
    REVEAL tab, is reported as the stripped text with the mode it was hidden
    in: in TAG mode when the stripped emoji holds no tag digit and no
    U+E007F, for auto and TAG-only detection; in BINARY mode when the
    stripped emoji holds no tag digit and none of U+200B, U+200C, U+200D and
    the stripped text passes the control character filter or is pure ASCII,
    for auto and BINARY-only detection. *)
Theorem hide_copy_reveal tag_down emoji_input hidden_input stego mode_name increase :
  encode_message tag_down emoji_input hidden_input
  = Hidden stego mode_name increase ->
  exists copied,
    encode_copy_result stego = Some copied
    /\ (tag_down = true -> tag_free (strip emoji_input) = true ->
        forall mode, mode <> BinaryOnly ->
          decode_message mode copied = MessageFound (strip hidden_input) TAG)
    /\ (tag_down = false ->
        digit_free (strip emoji_input) = true ->
        zw_free (strip emoji_input) = true ->
        plausible (strip hidden_input) = true
        \/ forallb is_ascii (strip hidden_input) = true ->
        forall mode, mode <> TagOnly ->
          decode_message mode copied = MessageFound (strip hidden_input) BINARY).
Proof.
  intros H.
  destruct (encode_message_outcomes_aux tag_down emoji_input hidden_input
              stego mode_name increase H) as [Hne [Henc [raw [Hraw Hcopy]]]].
  exists stego. split; [exact Hcopy|]. split.
  - intros -> Hfree mode Hmode.
    destruct (reveal_hidden _ _ raw Hfree Hraw) as [Hhide Hrev].
    rewrite Henc in Hhide. injection Hhide as ->.
    apply decode_message_found. rewrite Hrev.
    destruct (strip hidden_input) as [|c rest] eqn:Hh;
      [exfalso; apply Hne; reflexivity|].
    apply report_tag_found; [discriminate | exact Hmode].
  - intros -> Hdigit Hzw Hok mode Hmode.
    destruct (binary_round_trip_on _ _ raw Hzw Hraw Hne Hok)
      as [stego' [Hstego' Hdec]].
    rewrite Henc in Hstego'. injection Hstego' as <-.
    apply decode_message_found. rewrite Hdec.
    assert (Hrev : reveal_text_from_emoji_tags stego = None).
    { unfold encode_text_in_emoji_binary, text_to_binary in Henc.
      rewrite Hraw in Henc. injection Henc as <-.
      unfold reveal_text_from_emoji_tags.
      rewrite scan_nibbles_no_digit; [reflexivity|].
      unfold digit_free. rewrite forallb_app. apply andb_true_iff.
      split; [exact Hdigit | apply hidden_chars_digit_free]. }
    rewrite Hrev. apply report_binary_found; [exact Hne | exact Hmode].
Qed.

Lemma hide_copy_reveal_witness :
  decode_message AutoDetect [0x1F512; 0xE0004; 0xE0008; 0xE007F]
  = MessageFound [72] TAG.
Proof.
  destruct (hide_copy_reveal true [32; 0x1F512] [72; 32]
              [0x1F512; 0xE0004; 0xE0008; 0xE007F] TAG 3 eq_refl)
    as [copied [Hcopy [Htag _]]].
  vm_compute in Hcopy. injection Hcopy as <-.
  apply (Htag eq_refl eq_refl AutoDetect). discriminate.
Defined.

(** ** The UTF-8 decoder accepts canonical encodings only *)
Module CodecCanonical.
Import Codec.

Lemma div_mod_64 q r : 0 <= r < 64 -> (q * 64 + r) / 64 = q /\ (q * 64 + r) mod 64 = r.
Proof.
  intros Hr.
  pose proof (Z.div_mod (q * 64 + r) 64 ltac:(lia)) as E.
  pose proof (Z.mod_pos_bound (q * 64 + r) 64 ltac:(lia)) as B.
  split; lia.
Qed.

Lemma encode_one b : 0 <= b < 0x80 -> encode_code_point b = Some [b].
Proof.
  intros Hb. unfold encode_code_point, is_scalar, is_surrogate.
  repeat settle_test. reflexivity.
Qed.

Lemma encode_two q r :
  0 <= q < 32 -> 0 <= r < 64 -> 0x80 <= q * 64 + r ->
  encode_code_point (q * 64 + r) = Some [0xC0 + q; 0x80 + r].
Proof.
  intros Hq Hr Hc. destruct (div_mod_64 q r Hr) as [D M].
  unfold encode_code_point, is_scalar, is_surrogate.
  repeat settle_test. now rewrite D, M.
Qed.

Lemma encode_three p q r :
  0 <= p < 16 -> 0 <= q < 64 -> 0 <= r < 64 ->
  0x800 <= p * 4096 + q * 64 + r ->
  is_surrogate (p * 4096 + q * 64 + r) = false ->
  encode_code_point (p * 4096 + q * 64 + r)
  = Some [0xE0 + p; 0x80 + q; 0x80 + r].
Proof.
  intros Hp Hq Hr Hc Hs.
  replace (p * 4096 + q * 64 + r) with ((p * 64 + q) * 64 + r) in * by lia.
  destruct (div_mod_64 (p * 64 + q) r Hr) as [D M].
  destruct (div_mod_64 p q Hq) as [D' M'].
  assert (D2 : ((p * 64 + q) * 64 + r) / 4096 = p).
  { change 4096 with (64 * 64). rewrite <- Z.div_div by lia. now rewrite D. }
  unfold encode_code_point, is_scalar. rewrite Hs. unfold is_surrogate in Hs.
  repeat settle_test. now rewrite D2, D, M, M'.
Qed.

Lemma encode_four o p q r :
  0 <= o < 8 -> 0 <= p < 64 -> 0 <= q < 64 -> 0 <= r < 64 ->
  0x10000 <= o * 262144 + p * 4096 + q * 64 + r <= 0x10FFFF ->
  encode_code_point (o * 262144 + p * 4096 + q * 64 + r)
  = Some [0xF0 + o; 0x80 + p; 0x80 + q; 0x80 + r].
Proof.
  intros Ho Hp Hq Hr Hc.
  replace (o * 262144 + p * 4096 + q * 64 + r)
    with (((o * 64 + p) * 64 + q) * 64 + r) in * by lia.
  destruct (div_mod_64 ((o * 64 + p) * 64 + q) r Hr) as [D M].
  destruct (div_mod_64 (o * 64 + p) q Hq) as [D' M'].
  destruct (div_mod_64 o p Hp) as [D'' M''].
  assert (D2 : (((o * 64 + p) * 64 + q) * 64 + r) / 4096 = o * 64 + p).
  { change 4096 with (64 * 64). rewrite <- Z.div_div by lia. now rewrite D. }
  assert (D3 : (((o * 64 + p) * 64 + q) * 64 + r) / 262144 = o).
  { change 262144 with (4096 * 64). rewrite <- Z.div_div by lia.
    now rewrite D2. }
  unfold encode_code_point, is_scalar, is_surrogate.
  repeat settle_test. now rewrite D3, D2, D, M, M', M''.
Qed.

(** One step of the decoder: the first character and the bytes it was
    decoded from, which are its encoding. *)
Lemma utf8_decode_step b0 r0 text :
  utf8_decode (b0 :: r0) = Some text ->
  exists c bs rest text',
    b0 :: r0 = bs ++ rest /\ text = c :: text'
    /\ encode_code_point c = Some bs /\ utf8_decode rest = Some text'.
Proof.
  cbn [utf8_decode]. cbv zeta.
  destruct ((0 <=? b0) && (b0 <? 128)) eqn:T1.
  { destruct (utf8_decode r0) as [t'|] eqn:E; [|discriminate].
    intros [= <-]. exists b0, [b0], r0, t'.
    repeat split; try reflexivity; [apply encode_one; lia | exact E]. }
  destruct ((192 <=? b0) && (b0 <? 224)) eqn:T2.
  { destruct r0 as [|b1 r1]; [discriminate|].
    destruct (is_continuation b1 && _) eqn:C; [|discriminate].
    destruct (utf8_decode r1) as [t'|] eqn:E; [|discriminate].
    intros [= <-]. unfold is_continuation in C.
    exists ((b0 - 192) * 64 + (b1 - 128)), [b0; b1], r1, t'.
    repeat split; try reflexivity; [|exact E].
    rewrite encode_two by lia. do 3 f_equal; lia. }
  destruct ((224 <=? b0) && (b0 <? 240)) eqn:T3.
  { destruct r0 as [|b1 [|b2 r2]]; try discriminate.
    destruct (is_continuation b1 && _ && _ && _) eqn:C; [|discriminate].
    destruct (utf8_decode r2) as [t'|] eqn:E; [|discriminate].
    intros [= <-]. unfold is_continuation in C.
    apply andb_true_iff in C as [C Hs]. apply negb_true_iff in Hs.
    exists ((b0 - 224) * 4096 + (b1 - 128) * 64 + (b2 - 128)), [b0; b1; b2], r2, t'.
    repeat split; try reflexivity; [|exact E].
    rewrite encode_three by (try exact Hs; lia). do 4 f_equal; lia. }
  destruct ((240 <=? b0) && (b0 <? 248)) eqn:T4; [|discriminate].
  destruct r0 as [|b1 [|b2 [|b3 r3]]]; try discriminate.
  destruct (is_continuation b1 && _ && _ && _ && _) eqn:C; [|discriminate].
  destruct (utf8_decode r3) as [t'|] eqn:E; [|discriminate].
  intros [= <-]. unfold is_continuation in C.
  exists ((b0 - 240) * 262144 + (b1 - 128) * 4096 + (b2 - 128) * 64 + (b3 - 128)),
    [b0; b1; b2; b3], r3, t'.
  repeat split; try reflexivity; [|exact E].
  rewrite encode_four by lia. do 5 f_equal; lia.
Qed.

(** What decodes to a text is the encoding of that text. *)
Lemma utf8_decode_canonical raw text :
  utf8_decode raw = Some text -> utf8_encode text = Some raw.
Proof.
  remember (length raw) as n eqn:Hn. revert raw text Hn.
  induction n as [n IH] using (well_founded_induction lt_wf).
  intros [|b0 r0] text Hn H.
  - cbn in H. injection H as <-. reflexivity.
  - destruct (utf8_decode_step b0 r0 text H)
      as [c [bs [rest [text' [Hsplit [-> [Hc Hrest]]]]]]].
    pose proof (CodecFacts.encode_code_point_nonempty c bs Hc) as Hbs.
    assert (Hlen : (length rest < n)%nat).
    { subst n. rewrite Hsplit, length_app.
      destruct bs; [exfalso; apply Hbs; reflexivity | cbn [length]; lia]. }
    cbn [utf8_encode]. rewrite Hc, (IH _ Hlen rest text' eq_refl Hrest).
    now rewrite Hsplit.
Qed.

End CodecCanonical.

(** ** What the decoders return *)

Lemma list_pair_ind (P : list Z -> Prop) :
  P [] -> (forall a, P [a]) -> (forall a b l, P l -> P (a :: b :: l)) ->
  forall l, P l.
Proof.
  intros H0 H1 H2 l.
  assert (H : P l /\ forall a, P (a :: l)).
  { induction l as [|b rest [IH1 IH2]]; split; auto. }
  exact (proj1 H).
Qed.

Lemma pair_nibbles_length nibbles :
  (2 * length (pair_nibbles nibbles) <= length nibbles)%nat.
Proof.
  induction nibbles as [|a|a b rest IH] using list_pair_ind;
    cbn [pair_nibbles length]; lia.
Qed.

Lemma group_bytes_length binary :
  (8 * length (group_bytes binary) <= length binary)%nat.
Proof.
  remember (length binary) as n eqn:Hn. revert binary Hn.
  induction n as [n IH] using (well_founded_induction lt_wf).
  intros binary Hn.
  destruct binary as [|d7 [|d6 [|d5 [|d4 [|d3 [|d2 [|d1 [|d0 rest]]]]]]]];
    cbn [group_bytes length] in *; try lia.
  pose proof (IH (length rest) ltac:(lia) rest eq_refl). lia.
Qed.

Lemma group_bytes_bytes binary : Forall is_byte (group_bytes binary).
Proof.
  remember (length binary) as n eqn:Hn. revert binary Hn.
  induction n as [n IH] using (well_founded_induction lt_wf).
  intros binary Hn.
  destruct binary as [|d7 [|d6 [|d5 [|d4 [|d3 [|d2 [|d1 [|d0 rest]]]]]]]];
    cbn [group_bytes]; try constructor.
  - apply int_base2_byte.
  - apply (IH (length rest)); [subst n; cbn [length]; lia | reflexivity].
Qed.

Lemma bytes_well_formed raw : Forall is_byte raw -> Codec.well_formed raw = true.
Proof.
  induction 1 as [|b rest Hb _ IH]; [reflexivity|].
  cbn [Codec.well_formed forallb]. fold (Codec.well_formed rest). rewrite IH.
  unfold is_byte in Hb. unfold Codec.is_scalar, Codec.is_surrogate. lia.
Qed.

Lemma utf8_decode_well_formed raw text :
  Codec.utf8_decode raw = Some text -> Codec.well_formed text = true.
Proof.
  intros H. apply CodecCanonical.utf8_decode_canonical in H.
  exact (utf8_encode_some_wf _ _ H).
Qed.

Lemma utf8_decode_length raw text :
  Codec.utf8_decode raw = Some text ->
  (length text <= length raw)%nat /\ (raw <> [] -> text <> []).
Proof.
  intros H. apply CodecCanonical.utf8_decode_canonical in H.
  split; [exact (proj1 (utf8_encode_length _ _ H))|].
  intros Hraw ->. cbn in H. injection H as <-. now apply Hraw.
Qed.

(** The text of a BINARY decoding and the bytes it was read from. *)
Lemma decode_binary_inv s text :
  decode_text_from_emoji_binary s = Some text ->
  group_bytes (scan_bits s) <> []
  /\ (Codec.utf8_decode (group_bytes (scan_bits s)) = Some text
      /\ plausible text = true
      \/ text = group_bytes (scan_bits s)).
Proof.
  rewrite decode_binary_unfold, binary_to_text_chain.
  destruct (group_bytes (scan_bits s)) as [|b rest]; [discriminate|].
  intros H. split; [discriminate|]. cbn [first_success] in H.
  unfold utf8_attempt in H.
  destruct (Codec.utf8_decode (b :: rest)) as [r|].
  - destruct (plausible r) eqn:Hp.
    + injection H as <-. left. split; [reflexivity | exact Hp].
    + cbn in H. injection H as <-. right. reflexivity.
  - cbn in H. injection H as <-. right. reflexivity.
Qed.

(** X12: a text returned by a decoder is made of Unicode scalar values, so
    it can be encoded again, and a text returned by the BINARY decoder is
    never empty.  Hidden again in TAG mode on any carrier free of tag
    characters, a non-empty text the TAG decoder returned is revealed again;
    encoded again in BINARY mode on any carrier free of zero-width
    characters, a text the BINARY decoder returned is decoded again if it
    passes the control character filter. *)
Theorem decoded_text_encodable s text :
  (reveal_text_from_emoji_tags s = Some text ->
   Codec.well_formed text = true
   /\ (text <> [] -> forall carrier, tag_free carrier = true ->
       exists stego,
         hide_text_in_emoji_tags carrier text = Some stego
         /\ reveal_text_from_emoji_tags stego = Some text))
  /\ (decode_text_from_emoji_binary s = Some text ->
      Codec.well_formed text = true /\ text <> []
      /\ (plausible text = true -> forall carrier, zw_free carrier = true ->
          exists stego,
            encode_text_in_emoji_binary carrier text = Some stego
            /\ decode_text_from_emoji_binary stego = Some text)).
Proof.
  split.
  - unfold reveal_text_from_emoji_tags at 1.
    destruct (scan_nibbles s) as [|d rest]; [discriminate|].
    intros H. pose proof (utf8_decode_well_formed _ _ H) as Hwf.
    split; [exact Hwf|]. intros Hne carrier Hfree.
    destruct (CodecFacts.utf8_encode_total text Hwf) as [raw Henc].
    destruct (reveal_hidden carrier text raw Hfree Henc) as [Hhide Hrev].
    eexists. split; [exact Hhide|]. rewrite Hrev.
    destruct text; [exfalso; apply Hne|]; reflexivity.
  - intros H. destruct (decode_binary_inv s text H) as [Hne Hsrc].
    assert (Hwf : Codec.well_formed text = true).
    { destruct Hsrc as [[Hu _] | ->].
      - exact (utf8_decode_well_formed _ _ Hu).
      - apply bytes_well_formed, group_bytes_bytes. }
    assert (Htext : text <> []).
    { destruct Hsrc as [[Hu _] | ->]; [|exact Hne].
      exact (proj2 (utf8_decode_length _ _ Hu) Hne). }
    split; [exact Hwf|]. split; [exact Htext|].
    intros Hp carrier Hfree.
    destruct (CodecFacts.utf8_encode_total text Hwf) as [raw Henc].
    exact (binary_round_trip_on carrier text raw Hfree Henc Htext (or_introl Hp)).
Qed.

Lemma decoded_text_encodable_witness :
  Codec.well_formed [0xE9] = true
  /\ (([0xE9] : str) <> [] -> forall carrier, tag_free carrier = true ->
      exists stego,
        hide_text_in_emoji_tags carrier [0xE9] = Some stego
        /\ reveal_text_from_emoji_tags stego = Some [0xE9]).
Proof.
  exact (proj1 (decoded_text_encodable
                  [0x1F512; 0xE000C; 0xE0003; 0xE000A; 0xE0009; 0xE007F] [0xE9])
           eq_refl).
Defined.

(** X13: a revealed text has at most one character for every two digits the
    TAG scan collected, and a text decoded in BINARY mode at most one
    character for every eight bits collected. *)
Theorem decoded_text_length s text :
  (reveal_text_from_emoji_tags s = Some text ->
   (2 * length text <= length (scan_nibbles s))%nat)
  /\ (decode_text_from_emoji_binary s = Some text ->
      (8 * length text <= length (scan_bits s))%nat).
Proof.
  split.
  - unfold reveal_text_from_emoji_tags.
    destruct (scan_nibbles s) as [|d rest] eqn:E; [discriminate|].
    intros H. pose proof (proj1 (utf8_decode_length _ _ H)).
    pose proof (pair_nibbles_length (d :: rest)). lia.
  - intros H. destruct (decode_binary_inv s text H) as [_ Hsrc].
    pose proof (group_bytes_length (scan_bits s)).
    destruct Hsrc as [[Hu _] | ->]; [|lia].
    pose proof (proj1 (utf8_decode_length _ _ Hu)). lia.
Qed.

Lemma decoded_text_length_witness :
  (2 * length [0xE9]%Z
   <= length (scan_nibbles
                [0x1F512; 0xE000C; 0xE0003; 0xE000A; 0xE0009; 0xE007F]%Z))%nat.
Proof.
  exact (proj1 (decoded_text_length
                  [0x1F512; 0xE000C; 0xE0003; 0xE000A; 0xE0009; 0xE007F] [0xE9])
           eq_refl).
Defined.

(** ** Encoding what was decoded *)

Lemma nibble_pair_cases (P : Z -> Z -> bool) :
  forallb (fun h => forallb (P h) (map Z.of_nat (seq 0 16)))
          (map Z.of_nat (seq 0 16)) = true ->
  forall h l, 0 <= h < 16 -> 0 <= l < 16 -> P h l = true.
Proof.
  intros H h l Hh Hl. rewrite forallb_forall in H.
  assert (Hin : forall n, 0 <= n < 16 -> In n (map Z.of_nat (seq 0 16))).
  { intros n Hn. apply in_map_iff. exists (Z.to_nat n). split; [lia|].
    apply in_seq. lia. }
  specialize (H h (Hin h Hh)). rewrite forallb_forall in H.
  exact (H l (Hin l Hl)).
Qed.

Lemma split_joined_nibbles h l :
  0 <= h < 16 -> 0 <= l < 16 ->
  byte_to_tags (Z.lor (Z.shiftl h 4) l) = [TAG_BASE + h; TAG_BASE + l].
Proof.
  intros Hh Hl. unfold byte_to_tags. cbv zeta.
  pose proof (nibble_pair_cases
    (fun h l => (Z.land (Z.shiftr (Z.lor (Z.shiftl h 4) l) 4) 0x0F =? h)
                && (Z.land (Z.lor (Z.shiftl h 4) l) 0x0F =? l))
    ltac:(vm_compute; reflexivity) h l Hh Hl) as H.
  apply andb_true_iff in H as [H1 H2].
  apply Z.eqb_eq in H1, H2. now rewrite H1, H2.
Qed.

Lemma tag_view_digits s : Forall (fun c => is_tag_digit c = true) (tag_view s).
Proof.
  unfold tag_view. induction s as [|c rest IH]; cbn [filter upto]; [constructor|].
  unfold in_tag_alphabet at 1.
  destruct (is_tag_digit c) eqn:D; cbn [orb].
  - cbn [upto]. rewrite (tag_digit_not_end c D). constructor; assumption.
  - destruct (c =? TAG_END) eqn:E; [|exact IH].
    cbn [upto]. rewrite E. constructor.
Qed.

Lemma tags_of_paired_digits digits :
  Forall (fun c => is_tag_digit c = true) digits ->
  flat_map byte_to_tags (pair_nibbles (map (fun c => c - TAG_BASE) digits))
  = drop_unpaired digits.
Proof.
  induction digits as [|a|a b rest IH] using list_pair_ind;
    intros H; try reflexivity.
  inversion H as [|? ? Ha H']; subst. inversion H' as [|? ? Hb Hrest]; subst.
  cbn [map pair_nibbles flat_map drop_unpaired]. rewrite (IH Hrest).
  unfold is_tag_digit in Ha, Hb.
  rewrite split_joined_nibbles by lia. cbn [app].
  f_equal; [lia|]. f_equal. lia.
Qed.

Lemma format_08b_int_base2 d7 d6 d5 d4 d3 d2 d1 d0 :
  format_08b (int_base2 [d7; d6; d5; d4; d3; d2; d1; d0])
  = [d7; d6; d5; d4; d3; d2; d1; d0].
Proof. destruct d7, d6, d5, d4, d3, d2, d1, d0; vm_compute; reflexivity. Qed.

Lemma format_of_groups binary :
  flat_map format_08b (group_bytes binary) = whole_groups binary.
Proof.
  remember (length binary) as n eqn:Hn. revert binary Hn.
  induction n as [n IH] using (well_founded_induction lt_wf).
  intros binary Hn.
  destruct binary as [|d7 [|d6 [|d5 [|d4 [|d3 [|d2 [|d1 [|d0 rest]]]]]]]];
    try reflexivity.
  cbn [group_bytes whole_groups flat_map].
  rewrite format_08b_int_base2.
  rewrite (IH (length rest)); [reflexivity | subst n; cbn [length]; lia | reflexivity].
Qed.

(** X14: decoding loses nothing but what it drops.  The tag text of a
    revealed text is the digit characters of the input that come before the
    first terminator, without the last one when their number is odd; so two
    inputs that reveal the same text hold the same such digits.  The binary
    string of a text the BINARY decoder returned from its UTF-8 attempt is
    the collected bits without those after the last complete group of
    eight. *)
Theorem decoded_text_canonical s text :
  (reveal_text_from_emoji_tags s = Some text ->
   text_to_tags text = Some (drop_unpaired (tag_view s))
   /\ forall s', reveal_text_from_emoji_tags s' = Some text ->
                 drop_unpaired (tag_view s') = drop_unpaired (tag_view s))
  /\ (binary_to_text_traced (scan_bits s) = Some (ViaUtf8, text) ->
      text_to_binary text = Some (whole_groups (scan_bits s))).
Proof.
  assert (Htag : forall x t,
             reveal_text_from_emoji_tags x = Some t ->
             text_to_tags t = Some (drop_unpaired (tag_view x))).
  { intros x t. unfold reveal_text_from_emoji_tags.
    destruct (scan_nibbles x) as [|d rest] eqn:E; [discriminate|].
    rewrite <- E, scan_nibbles_view. intros H.
    apply CodecCanonical.utf8_decode_canonical in H.
    unfold text_to_tags. rewrite H.
    now rewrite (tags_of_paired_digits _ (tag_view_digits x)). }
  split.
  - intros H. split; [exact (Htag s text H)|].
    intros s' H'. pose proof (Htag s text H) as E. pose proof (Htag s' text H') as E'.
    rewrite E in E'. now injection E' as <-.
  - unfold binary_to_text_traced.
    destruct (group_bytes (scan_bits s)) as [|b rest] eqn:E; [discriminate|].
    unfold utf8_attempt.
    destruct (Codec.utf8_decode (b :: rest)) as [r|] eqn:Hu;
      [destruct (plausible r) |]; cbn; try discriminate.
    intros [= <-]. apply CodecCanonical.utf8_decode_canonical in Hu.
    unfold text_to_binary. rewrite Hu, <- E. now rewrite format_of_groups.
Qed.

Lemma decoded_text_canonical_witness :
  text_to_tags [72]
  = Some (drop_unpaired (tag_view [0x1F512; 0xE0004; 97; 0xE0008; 0xE0006;
                                   0xE007F; 0xE0009])).
Proof.
  exact (proj1 (proj1 (decoded_text_canonical
                         [0x1F512; 0xE0004; 97; 0xE0008; 0xE0006; 0xE007F; 0xE0009]
                         [72]) eq_refl)).
Defined.

(** ** The control character filter in floating point *)

(** X15: on every decoded text of up to 4096 characters, the test
    [control_count <= len(result) * 0.1], computed in binary64 with the
    product rounded to nearest and the comparison exact, holds exactly when
    ten times the number of control characters is at most the length. *)
Theorem control_filter_binary64 result :
  (length result <= 4096)%nat ->
  plausible_binary64 result
  = (10 * Z.of_nat (length (filter is_control result))
     <=? Z.of_nat (length result)).
Proof. intros H. exact (plausible_binary64_agrees result H). Qed.

Lemma control_filter_binary64_witness :
  plausible_binary64 [1; 72; 105; 72; 105; 72; 105; 72; 105; 72] = true.
Proof.
  apply (eq_trans (control_filter_binary64
                     [1; 72; 105; 72; 105; 72; 105; 72; 105; 72]
                     ltac:(cbn; lia))).
  reflexivity.
Defined.
